(** * Blood-pressure display reader: a model of [functions/py/main.py]

    The Cloud Function [process_bp] decodes a photo, locates the monitor's
    display by template matching, scores the located region, cuts it into
    three bands, reads each band with two recognisers, stores two images,
    builds a record, writes it, and answers with the record or, when a
    step raises, with an error object.  As the record holds a
    [numpy.bool_], which [json.dumps] does not encode, the last step raises
    whenever it is reached.

    The Python code is embedded shallowly.  Exceptions are an explicit
    [result] type, the storage bucket and the Firestore collection are an
    explicit [Store] threaded through a state-and-exception monad, and the
    third-party engines (image codecs, the correlation score, the two
    recognisers, the clock and the identifier source) are fields of a
    record [Externals] over which every general theorem quantifies.  The
    builtins of Python itself ([str.strip], [str.isdigit], [int],
    [json.dumps]) are modelled as CPython 3.11 defines them. *)

From Stdlib Require Import ZArith NArith QArith Qpower Lia Lqa SpecFloat Ascii String
  DecimalString.
From stdpp Require Import base strings list gmap.

Local Open Scope string_scope.
Local Open Scope nat_scope.

(** ** Exceptions

    [Raise msg] is a raised Python exception [e], kept as the text that
    [str(e)] would give: the only thing the handler of [process_bp] reads. *)

Inductive result (A : Type) : Type :=
| Ok (a : A)
| Raise (msg : string).

Arguments Ok {A} a.
Arguments Raise {A} msg.

#[export] Instance result_ret : MRet result := fun A a => Ok a.

#[export] Instance result_bind : MBind result := fun A B f m =>
  match m with
  | Ok a => f a
  | Raise msg => Raise msg
  end.

#[export] Instance result_fmap : FMap result := fun A B f m =>
  match m with
  | Ok a => Ok (f a)
  | Raise msg => Raise msg
  end.

Definition is_Raise {A : Type} (r : result A) : Prop :=
  exists msg, r = Raise msg.

(** A list comprehension [[f(c) for c in l]]: the calls run left to right
    and the first exception ends the comprehension. *)

Fixpoint comprehension {A B : Type} (f : A -> result B) (l : list A)
  : result (list B) :=
  match l with
  | [] => Ok []
  | a :: l' => b ← f a; bs ← comprehension f l'; Ok (b :: bs)
  end.

(** ** Python [str]

    A Python [str] is a sequence of Unicode code points.  The texts that
    the recognisers return, whose characters the program classifies, are
    kept as such: a [text] is the list of its code points.  Names, paths,
    messages and the request's payload, which the program only compares,
    concatenates and splits at the ASCII comma, are kept as a [string] of
    their UTF-8 bytes, in which a byte 44 is always a comma. *)

Definition text : Type := list N.

(** The text of an ASCII literal. *)
Definition ascii_text (s : string) : text :=
  map N_of_ascii (list_ascii_of_string s).

Module str.

(** [c.isspace()]: the characters of bidirectional class WS, B or S and of
    category Zs.  Below 256 these are tab to carriage return, the four
    separators 0x1c-0x1f, space, next line (0x85) and no-break space
    (0xa0); above, the Ogham space mark, the spaces U+2000-U+200A, the
    line and paragraph separators, the narrow no-break space, the medium
    mathematical space and the ideographic space. *)
Definition isspace_char (c : N) : bool :=
  (((9 <=? c) && (c <=? 13)) || ((28 <=? c) && (c <=? 32))
   || (c =? 133) || (c =? 160) || (c =? 5760)
   || ((8192 <=? c) && (c <=? 8202)) || (c =? 8232) || (c =? 8233)
   || (c =? 8239) || (c =? 8287) || (c =? 12288))%N.

Fixpoint lstrip (s : text) : text :=
  match s with
  | [] => []
  | c :: s' => if isspace_char c then lstrip s' else s
  end.

Fixpoint rstrip (s : text) : text :=
  match s with
  | [] => []
  | c :: s' =>
      match rstrip s' with
      | [] => if isspace_char c then [] else [c]
      | t => c :: t
      end
  end.

(** [s.strip()] *)
Definition strip (s : text) : text := rstrip (lstrip s).

(** The zeros of the decimal digits (category Nd) of Unicode 14.0, the
    version of CPython 3.11: each is followed by its digits one to nine. *)
Definition decimal_zeros : list N :=
  [48; 1632; 1776; 1984; 2406; 2534; 2662; 2790; 2918; 3046; 3174; 3302;
   3430; 3558; 3664; 3792; 3872; 4160; 4240; 6112; 6160; 6470; 6608; 6784;
   6800; 6992; 7088; 7232; 7248; 42528; 43216; 43264; 43472; 43504; 43600;
   44016; 65296; 66720; 68912; 69734; 69872; 69942; 70096; 70384; 70736;
   70864; 71248; 71360; 71472; 71904; 72016; 72784; 73040; 73120; 92768;
   92864; 93008; 120782; 120792; 120802; 120812; 120822; 123200; 123632;
   125264; 130032]%N.

(** The value of a decimal digit, [None] for any other character: what
    [int] reads a character as. *)
Definition decimal_value (c : N) : option N :=
  (fun z => (c - z)%N)
    <$> find (fun z => ((z <=? c) && (c <? z + 10))%N) decimal_zeros.

(** The ranges of the digits that are no decimal digits (numeric type
    Digit): superscripts and subscripts, circled and parenthesised digits
    and the like. *)
Definition other_digits : list (N * N) :=
  [(178, 179); (185, 185); (4969, 4977); (6618, 6618); (8304, 8304);
   (8308, 8313); (8320, 8329); (9312, 9320); (9332, 9340); (9352, 9360);
   (9450, 9450); (9461, 9469); (9471, 9471); (10102, 10110);
   (10112, 10120); (10122, 10130); (68160, 68163); (69216, 69224);
   (69714, 69722); (127232, 127242)]%N.

(** [c.isdigit()]: a decimal digit or one of the other digits. *)
Definition isdigit_char (c : N) : bool :=
  match decimal_value c with
  | Some _ => true
  | None => existsb (fun r => ((r.1 <=? c) && (c <=? r.2))%N) other_digits
  end.

(** [s.isdigit()]: at least one character, and all of them digits. *)
Definition isdigit (s : text) : bool :=
  match s with
  | [] => false
  | _ => forallb isdigit_char s
  end.

(** The decimal digits that [s] starts with, as their values, and the
    rest of [s]. *)
Fixpoint decimal_prefix (s : text) : list N * text :=
  match s with
  | [] => ([], [])
  | c :: s' =>
      match decimal_value c with
      | Some d => let '(ds, rest) := decimal_prefix s' in (d :: ds, rest)
      | None => ([], s)
      end
  end.

(** [sys.get_int_max_str_digits()], as CPython sets it. *)
Definition max_str_digits : nat := 4300.

(** The UTF-8 bytes of a code point, and of a text. *)
Definition utf8_char (c : N) : list N :=
  (if c <? 128 then [c]
   else if c <? 2048 then [192 + c / 64; 128 + c mod 64]
   else if c <? 65536
     then [224 + c / 4096; 128 + (c / 64) mod 64; 128 + c mod 64]
   else [240 + c / 262144; 128 + (c / 4096) mod 64; 128 + (c / 64) mod 64;
         128 + c mod 64])%N.

Definition utf8 (s : text) : string :=
  string_of_list_ascii (map ascii_of_N (concat (map utf8_char s))).

(** [str(n)] for a natural number. *)
Definition decimal (n : nat) : string := NilEmpty.string_of_uint (Nat.to_uint n).

(** [int(s)] for a text without sign, underscore and surrounding
    whitespace, as every text is for which [s.isdigit()] holds.  The
    decimal digits at the start are counted first, and more of them than
    [max_str_digits] raise [ValueError]; any character after them that is
    no decimal digit, or no digit at all, raises [ValueError] too, with the
    text between quotes, which is how [repr] shows a text of digits. *)
Definition int (s : text) : result Z :=
  let '(ds, rest) := decimal_prefix s in
  if max_str_digits <? length ds
  then Raise ("Exceeds the limit (4300 digits) for integer string conversion: value has "
              ++ decimal (length ds)
              ++ " digits; use sys.set_int_max_str_digits() to increase the limit")
  else
    match ds, rest with
    | _ :: _, [] => Ok (fold_left (fun acc d => (10 * acc + Z.of_N d)%Z) ds 0%Z)
    | _, _ => Raise ("invalid literal for int() with base 10: '" ++ utf8 s ++ "'")
    end.

(** [''.join(l)] *)
Definition join (l : list text) : text := concat l.

(** [a == b] *)
Fixpoint eqb (a b : text) : bool :=
  match a, b with
  | [], [] => true
  | x :: a', y :: b' => (x =? y)%N && eqb a' b'
  | _, _ => false
  end.

Fixpoint all_chars (p : ascii -> bool) (s : string) : bool :=
  match s with
  | EmptyString => true
  | String c s' => p c && all_chars p s'
  end.

(** [s.split(sep)] for a one-character separator: the maximal pieces
    between separators, in order; never the empty list. *)
Fixpoint split (sep : ascii) (s : string) : list string :=
  match s with
  | EmptyString => [EmptyString]
  | String c s' =>
      if Ascii.eqb c sep then EmptyString :: split sep s'
      else match split sep s' with
           | [] => [String c EmptyString]
           | w :: ws => String c w :: ws
           end
  end.

Definition contains (c : ascii) (s : string) : bool :=
  negb (all_chars (fun d => negb (Ascii.eqb d c)) s).

End str.

(** [l[-1]]: the last element, [IndexError] on the empty list. *)
Definition getitem_last {A : Type} (l : list A) : result A :=
  match last l with
  | Some a => Ok a
  | None => Raise "list index out of range"
  end.

(** [a, b, c = l]: [ValueError] unless [l] has exactly three elements. *)
Definition unpack3 {A : Type} (l : list A) : result (A * A * A) :=
  match l with
  | [a; b; c] => Ok (a, b, c)
  | _ :: _ :: _ :: _ :: _ => Raise "too many values to unpack (expected 3)"
  | _ => Raise "not enough values to unpack"
  end.

(** [l[i]] for a non-negative index. *)
Definition getitem_list {A : Type} (l : list A) (i : nat) : result A :=
  match l !! i with
  | Some a => Ok a
  | None => Raise "list index out of range"
  end.

(** [l1 == l2] on lists of texts. *)
Fixpoint list_eqb (l1 l2 : list text) : bool :=
  match l1, l2 with
  | [], [] => true
  | a :: l1', b :: l2' => str.eqb a b && list_eqb l1' l2'
  | _, _ => false
  end.

(** ** Floating-point numbers

    A Python [float] and a numpy [float64] are IEEE 754 binary64 numbers;
    [spec_float] is their reference model, [SFltb] the comparison [<]. *)

Definition float : Type := spec_float.

Definition prec64 : Z := 53.
Definition emax64 : Z := 1024.

(** The value of a finite float, [(-1)^s * m * 2^e], as a rational. *)
Definition finite_value (s : bool) (m : positive) (e : Z) : Q :=
  ((if s then -1 else 1) * inject_Z (Z.pos m) * Qpower 2 e)%Q.

(** ** numpy

    A two-dimensional array is its shape and its elements; [px a r c] is
    [a[r, c]] and is only meaningful for [r < shape0 a] and [c < shape1 a]. *)

Module np.

Record ndarray (A : Type) : Type := {
  shape0 : nat;
  shape1 : nat;
  px : nat -> nat -> A
}.

Arguments shape0 {A} _.
Arguments shape1 {A} _.
Arguments px {A} _ _ _.

(** [a[r0:r1, c0:c1]] for non-negative bounds: numpy clips both bounds
    to the axis length, and an empty range gives an empty axis. *)
Definition slice {A : Type} (a : ndarray A) (r0 r1 c0 c1 : nat) : ndarray A :=
  {| shape0 := Nat.min r1 (shape0 a) - Nat.min r0 (shape0 a);
     shape1 := Nat.min c1 (shape1 a) - Nat.min c0 (shape1 a);
     px := fun r c => px a (r0 + r) (c0 + c) |}.

(** [a[r0:r1, :]] *)
Definition slice_rows {A : Type} (a : ndarray A) (r0 r1 : nat) : ndarray A :=
  {| shape0 := Nat.min r1 (shape0 a) - Nat.min r0 (shape0 a);
     shape1 := shape1 a;
     px := fun r c => px a (r0 + r) c |}.

(** [numpy.bool_]: numpy's own boolean, the type of a comparison of numpy
    numbers.  It is no subclass of Python's [bool]. *)
Inductive bool_ : Type := True_ | False_.

(** [bool(b)] *)
Definition truth (b : bool_) : bool :=
  match b with
  | True_ => true
  | False_ => false
  end.

(** [a < b] where [a] is a [numpy.float64] *)
Definition less (a b : spec_float) : bool_ :=
  if SFltb a b then True_ else False_.

End np.

Export np.

Definition image_gray : Type := ndarray Z.
Definition image_bgr : Type := ndarray (Z * Z * Z).
Definition bytes : Type := list Byte.byte.

(** ** The request, the record and the stores *)

(** A parsed JSON body. *)
#[local] Unset Elimination Schemes.
Inductive json : Type :=
| JNull
| JBool (b : bool)
| JInt (n : Z)
| JString (s : string)
| JArray (l : list json)
| JObject (o : gmap string json).
#[local] Set Elimination Schemes.

(** [request.get_json(force=True)]: the parsed body, or the exception
    raised for a body that is not JSON. *)
Record Request : Type := { get_json : result json }.

(** What one invocation reads from its surroundings:
    [datetime.datetime.utcnow().isoformat()] and [uuid.uuid4().hex]. *)
Record Env : Type := { utcnow_isoformat : string; uuid4_hex : string }.

(** The dictionary [doc] of [process_bp], one field per key, each with the
    type that the value has in the program: [glare_detected] is the result
    of comparing a [numpy.float64], a [numpy.bool_]; [variance] is a
    [numpy.float64], a subclass of [float]; [consensus] is the result of
    comparing two lists, a [bool]. *)
Record Doc : Type := {
  timestamp : string;
  glare_detected : bool_;
  variance : float;
  image_url : string;
  heatmap_url : string;
  ocr_raw : gmap string text;
  consensus : bool;
  ocr_alternates : gmap string (list text);
  systolic : option Z;
  diastolic : option Z;
  pulse : option Z
}.

Record Blob : Type := { content : bytes; content_type : string }.

(** The durable state: the storage bucket, by object path, and the
    Firestore collection [readings], by document identifier. *)
Record Store : Type := {
  bucket : gmap string Blob;
  readings : gmap string Doc
}.

(** The answer of [process_bp]: [(json.dumps(doc), 200, ...)] or
    [(json.dumps({"error": str(e)}), 500, ...)], the body kept as the
    structure that [json.dumps] prints. *)
Inductive Response : Type :=
| Reading (doc : Doc)
| ErrorResponse (error : string).

Definition status_code (r : Response) : nat :=
  match r with
  | Reading _ => 200
  | ErrorResponse _ => 500
  end.

(** ** [json.dumps]

    The encoder writes a value by its type: [str], [int], [float] and its
    subclasses, [bool], [None], lists, and dictionaries with string keys.
    On a value of any other type it raises [TypeError], and on an integer
    of more than 4300 digits [ValueError].  [encoding_error a] is the
    message of the first exception met while writing [a], if there is
    one. *)

Class JSONEncodable (A : Type) : Type := encoding_error : A -> option string.

(** The first message in a list of findings. *)
Fixpoint first_error (l : list (option string)) : option string :=
  match l with
  | [] => None
  | Some msg :: _ => Some msg
  | None :: l' => first_error l'
  end.

#[export] Instance encodable_str : JSONEncodable string := fun _ => None.
#[export] Instance encodable_text : JSONEncodable text := fun _ => None.
#[export] Instance encodable_bool : JSONEncodable bool := fun _ => None.
#[export] Instance encodable_float : JSONEncodable float := fun _ => None.

(** The least number of more than 4300 digits. *)
Definition int_str_limit : Z := Eval vm_compute in (10 ^ 4300)%Z.

(** An integer is written in decimal, within the limit of [int] and [str]. *)
#[export] Instance encodable_int : JSONEncodable Z := fun n =>
  if (Z.abs n <? int_str_limit)%Z then None
  else Some "Exceeds the limit (4300 digits) for integer string conversion; use sys.set_int_max_str_digits() to increase the limit".

(** A [numpy.bool_] is none of the types the encoder knows. *)
#[export] Instance encodable_numpy_bool : JSONEncodable bool_ :=
  fun _ => Some "Object of type bool_ is not JSON serializable".

(** A value or [None] *)
#[export] Instance encodable_option {A : Type} `{JSONEncodable A}
  : JSONEncodable (option A) := fun o =>
  match o with
  | Some a => encoding_error a
  | None => None
  end.

#[export] Instance encodable_list {A : Type} `{JSONEncodable A}
  : JSONEncodable (list A) := fun l => first_error (map encoding_error l).

#[export] Instance encodable_dict {A : Type} `{JSONEncodable A}
  : JSONEncodable (gmap string A) := fun d =>
  first_error (map (fun kv => encoding_error kv.2) (map_to_list d)).

(** The keys of [doc] in the order of the dictionary literal, which is the
    order in which the encoder writes them. *)
#[export] Instance encodable_doc : JSONEncodable Doc := fun doc =>
  first_error
    [encoding_error (timestamp doc); encoding_error (glare_detected doc);
     encoding_error (variance doc); encoding_error (image_url doc);
     encoding_error (heatmap_url doc); encoding_error (ocr_raw doc);
     encoding_error (consensus doc); encoding_error (ocr_alternates doc);
     encoding_error (systolic doc); encoding_error (diastolic doc);
     encoding_error (pulse doc)].

(** [json.dumps(a)]: the encoded value, or the exception. *)
Definition json_dumps {A : Type} `{JSONEncodable A} (a : A) : result A :=
  match encoding_error a with
  | Some msg => Raise msg
  | None => Ok a
  end.

(** ** Third-party engines

    Each field is one library call of [main.py] whose result the code only
    passes on.  A call that can fail returns a [result]. *)

Record Externals : Type := {
  (** [base64.b64decode(b64)] *)
  b64decode : string -> result bytes;
  (** [cv2.imdecode(np.frombuffer(raw, np.uint8), cv2.IMREAD_COLOR)]:
      [None] for data that is no image *)
  imdecode : bytes -> result (option image_bgr);
  (** [cv2.cvtColor(img, cv2.COLOR_BGR2GRAY)] on an image *)
  bgr2gray : image_bgr -> image_gray;
  (** the [TM_CCOEFF_NORMED] score of a window against a pattern of the
      same size *)
  ccoeff_normed : image_gray -> image_gray -> float;
  (** [cv2.Laplacian(gray, cv2.CV_64F).var()] *)
  laplacian_var : image_gray -> result float;
  (** [pytesseract.image_to_string(img, config=cfg)] *)
  image_to_string : image_gray -> result text;
  (** [OCR_READER.readtext(img, detail=0)] *)
  readtext : image_gray -> result (list text);
  (** [cv2.rectangle(debug_img, p, q, (0,255,0), 2)] on a copy *)
  rectangle : image_bgr -> nat * nat -> nat * nat -> image_bgr;
  (** [cv2.applyColorMap(display, cv2.COLORMAP_JET)] *)
  applyColorMap : image_gray -> result image_bgr;
  (** [cv2.imencode(".jpg", img_bgr)], then [buf.tobytes()] *)
  imencode : image_bgr -> result bytes;
  (** whether [blob.upload_from_string] fails for this path and content:
      [Some msg] is the exception, [None] a completed upload *)
  upload_fault : string -> bytes -> option string;
  (** [blob.public_url] of the object at a path *)
  public_url : string -> string;
  (** [round(variance, 2)] *)
  round2 : float -> float;
  (** whether [document(uid).set(doc)] fails: [Some msg] is the exception,
      as when the client refuses a value of a type it cannot convert,
      [None] a completed write *)
  set_fault : string -> Doc -> option string
}.

(** ** The state-and-exception monad

    A step reads and writes the [Store] and returns or raises.  A raised
    exception keeps the store as the step left it: nothing is undone. *)

Definition M (A : Type) : Type := Store -> result A * Store.

#[export] Instance M_ret : MRet M := fun A a st => (Ok a, st).

#[export] Instance M_bind : MBind M := fun A B f m st =>
  match m st with
  | (Ok a, st') => f a st'
  | (Raise msg, st') => (Raise msg, st')
  end.

(** A step without effect on the store. *)
Definition lift {A : Type} (r : result A) : M A := fun st => (r, st).

(** ** OpenCV functions used by the locator *)

Module cv2.

Section Engines.

Context (E : Externals).

(** The map of scores of [templ] slid over [image]: one score per
    placement, [(H - h + 1)] rows by [(W - w + 1)] columns. *)
Definition score_map (image templ : image_gray) : ndarray float :=
  {| shape0 := shape0 image - shape0 templ + 1;
     shape1 := shape1 image - shape1 templ + 1;
     px := fun y x =>
       ccoeff_normed E
         (slice image y (y + shape0 templ) x (x + shape1 templ)) templ |}.

(** [cv2.matchTemplate(image, templ, cv2.TM_CCOEFF_NORMED)], as OpenCV's
    [matchTemplate] treats sizes: an image that is smaller than the
    pattern in some dimension must be no larger in the other, and the two
    are then exchanged; the assertion fails, and the call raises, only
    when the image is smaller along one axis and larger along the other. *)
Definition matchTemplate (image templ : image_gray) : result (ndarray float) :=
  let needswap :=
    (shape0 image <? shape0 templ) || (shape1 image <? shape1 templ) in
  if needswap then
    if (shape0 image <=? shape0 templ) && (shape1 image <=? shape1 templ)
    then Ok (score_map templ image)
    else Raise "(-215:Assertion failed) _img.size().height <= _templ.size().height && _img.size().width <= _templ.size().width in function 'matchTemplate'"
  else Ok (score_map image templ).

End Engines.

(** The scan of [cv2.minMaxLoc]: row by row, a later cell replaces the
    current one only when strictly better. *)
Definition scan (better : float -> float -> bool) (res : ndarray float)
  : nat * nat :=
  fold_left
    (fun best cell =>
       if better (px res cell.1 cell.2) (px res best.1 best.2)
       then cell else best)
    (list_prod (seq 0 (shape0 res)) (seq 0 (shape1 res)))
    (0, 0).

(** [cv2.minMaxLoc(res)]: [(minVal, maxVal, minLoc, maxLoc)], locations
    as [(x, y)], that is (column, row). *)
Definition minMaxLoc (res : ndarray float)
  : float * float * (nat * nat) * (nat * nat) :=
  let lo := scan (SFltb) res in
  let hi := scan (fun a b => SFltb b a) res in
  (px res lo.1 lo.2, px res hi.1 hi.2, (lo.2, lo.1), (hi.2, hi.1)).

End cv2.

(** ** The program *)

(** [VAR_THRESHOLD = 10.0]: the binary64 number [5 * 2^50 * 2^-49]. *)
Definition VAR_THRESHOLD : float := S754_finite false 5629499534213120 (-49).

Section Main.

(** [TEMPLATE]: the reference picture read from [template/bp_display.png]
    when the module is loaded. *)
Context (TEMPLATE : image_gray).
Context (E : Externals).

(** [ROI_W, ROI_H = TEMPLATE.shape[::-1]] *)
Definition ROI_W : nat := shape1 TEMPLATE.
Definition ROI_H : nat := shape0 TEMPLATE.

(** [blob.upload_from_string(data, content_type="image/jpeg")] *)
Definition upload_from_string (path : string) (data : bytes) : M unit :=
  fun st =>
    match upload_fault E path data with
    | Some msg => (Raise msg, st)
    | None =>
        (Ok tt,
         {| bucket := <[path := {| content := data; content_type := "image/jpeg" |}]> (bucket st);
            readings := readings st |})
    end.

Definition upload_blob (path : string) (img_bgr : image_bgr) : M string :=
  buf ← lift (imencode E img_bgr);
  _ ← upload_from_string path buf;
  mret (public_url E path).

Definition lap_var (gray : image_gray) : result float :=
  laplacian_var E gray.

Definition find_display (gray : image_gray)
  : result (image_gray * (nat * nat)) :=
  res ← cv2.matchTemplate E gray TEMPLATE;
  let '(_, _, _, loc) := cv2.minMaxLoc res in
  let '(x, y) := loc in
  Ok (slice gray y (y + ROI_H) x (x + ROI_W), (x, y)).

Definition ocr_tess (img : image_gray) : result text :=
  str.strip <$> image_to_string E img.

Definition ocr_easy (img : image_gray) : result text :=
  (fun l => str.strip (str.join l)) <$> readtext E img.

(** [data[key]]: [KeyError] on a missing key, [TypeError] on a body that
    is not an object. *)
Definition getitem (data : json) (key : string) : result json :=
  match data with
  | JObject o =>
      match o !! key with
      | Some v => Ok v
      | None => Raise ("'" ++ key ++ "'")
      end
  | JArray _ => Raise "list indices must be integers or slices, not str"
  | JString _ => Raise "string indices must be integers"
  | JNull => Raise "'NoneType' object is not subscriptable"
  | JBool _ => Raise "'bool' object is not subscriptable"
  | JInt _ => Raise "'int' object is not subscriptable"
  end.

(** [v.split(",")]: [AttributeError] unless [v] is a string. *)
Definition split_comma (v : json) : result (list string) :=
  match v with
  | JString s => Ok (str.split "," s)
  | JNull => Raise "'NoneType' object has no attribute 'split'"
  | JBool _ => Raise "'bool' object has no attribute 'split'"
  | JInt _ => Raise "'int' object has no attribute 'split'"
  | JArray _ => Raise "'list' object has no attribute 'split'"
  | JObject _ => Raise "'dict' object has no attribute 'split'"
  end.

(** [cv2.cvtColor(img, cv2.COLOR_BGR2GRAY)], where [img] is [None] when
    [cv2.imdecode] could not read the data. *)
Definition cvtColor (img : option image_bgr) : result image_gray :=
  match img with
  | Some i => Ok (bgr2gray E i)
  | None => Raise "(-215:Assertion failed) !_src.empty() in function 'cvtColor'"
  end.

(** [[display[i*h:(i+1)*h, :] for i in range(3)]] *)
Definition crops_of (display : image_gray) : list image_gray :=
  let h := shape0 display / 3 in
  map (fun i => slice_rows display (i * h) ((i + 1) * h)) (seq 0 3).

(** [int(s) if s.isdigit() else None]: [int] is called, and can raise,
    exactly when [s.isdigit()] holds. *)
Definition parse_field (s : text) : result (option Z) :=
  if str.isdigit s then Some <$> str.int s else Ok None.

(** [db.collection("readings").document(uid).set(doc)] *)
Definition document_set (uid : string) (doc : Doc) : M unit :=
  fun st =>
    match set_fault E uid doc with
    | Some msg => (Raise msg, st)
    | None =>
        (Ok tt,
         {| bucket := bucket st; readings := <[uid := doc]> (readings st) |})
    end.

(** [img.copy()]: [AttributeError] on [None]. *)
Definition copy (img : option image_bgr) : result image_bgr :=
  match img with
  | Some i => Ok i
  | None => Raise "'NoneType' object has no attribute 'copy'"
  end.

(** Lines 57 to 96 of [process_bp]: from the decoded image to the
    dictionary [doc].  The values of the dictionary literal are computed
    in the order of its keys, the three numbers last. *)
Definition assemble (img : option image_bgr) (gray : image_gray) (env : Env)
  : M Doc :=
  '(display, (dx, dy)) ← lift (find_display gray);
  variance ← lift (lap_var display);
  let glare_detected := less variance VAR_THRESHOLD in
  let crops := crops_of display in
  primary ← lift (comprehension ocr_tess crops);
  second ← lift (comprehension ocr_easy crops);
  let consensus := list_eqb primary second in
  '(sys_s, dia_s, pul_s) ← lift (unpack3 primary);
  let ts := utcnow_isoformat env in
  let uid := uuid4_hex env in
  debug_img ← lift (copy img);
  let debug_img := rectangle E debug_img (dx, dy) (dx + ROI_W, dy + ROI_H) in
  img_url ← upload_blob ("bp/" ++ uid ++ "_orig.jpg") debug_img;
  heat ← lift (applyColorMap E display);
  heat_url ← upload_blob ("bp/" ++ uid ++ "_heat.jpg") heat;
  p0 ← lift (getitem_list primary 0);
  s0 ← lift (getitem_list second 0);
  p1 ← lift (getitem_list primary 1);
  s1 ← lift (getitem_list second 1);
  p2 ← lift (getitem_list primary 2);
  s2 ← lift (getitem_list second 2);
  systolic ← lift (parse_field sys_s);
  diastolic ← lift (parse_field dia_s);
  pulse ← lift (parse_field pul_s);
  mret
    {| timestamp := ts;
       glare_detected := glare_detected;
       variance := round2 E variance;
       image_url := img_url;
       heatmap_url := heat_url;
       ocr_raw := {[ "sys" := sys_s; "dia" := dia_s; "pul" := pul_s ]};
       consensus := consensus;
       ocr_alternates :=
         {[ "sys" := [p0; s0]; "dia" := [p1; s1]; "pul" := [p2; s2] ]};
       systolic := systolic;
       diastolic := diastolic;
       pulse := pulse |}.

(** The [try] block of [process_bp], from the decoded image on: the
    dictionary is built, written to the collection, and encoded for the
    answer. *)
Definition analyse (img : option image_bgr) (gray : image_gray) (env : Env)
  : M Doc :=
  doc ← assemble img gray env;
  _ ← document_set (uuid4_hex env) doc;
  lift (json_dumps doc).

(** The payload of the request: [data["image_base64"].split(",")[-1]]. *)
Definition payload (request : Request) : result string :=
  data ← get_json request;
  field ← getitem data "image_base64";
  parts ← split_comma field;
  getitem_last parts.

(** From the payload to the decoded image ([None] when the data is no
    image) and its grey version. *)
Definition decode (b64 : string) : result (option image_bgr * image_gray) :=
  raw ← b64decode E b64;
  img ← imdecode E raw;
  gray ← cvtColor img;
  Ok (img, gray).

Definition process_bp_try (request : Request) (env : Env) : M Doc :=
  b64 ← lift (payload request);
  '(img, gray) ← lift (decode b64);
  analyse img gray env.

(** [process_bp]: the [try] block, and the handler that turns any
    exception into the error object. *)
Definition process_bp (request : Request) (env : Env) (st : Store)
  : Response * Store :=
  match process_bp_try request env st with
  | (Ok doc, st') => (Reading doc, st')
  | (Raise e, st') => (ErrorResponse e, st')
  end.

End Main.

(** ** Vocabulary of the statements *)

(** A decimal digit, [0] to [9]. *)
Definition decimal_digit (c : N) : Prop := (48 <= c <= 57)%N.

(** The integer that a numeral of the digits 0 to 9 denotes: digit [i]
    from the right weighs [10^i]. *)
Fixpoint denoted (s : text) : Z :=
  match s with
  | [] => 0
  | c :: s' => (Z.of_N c - 48) * 10 ^ Z.of_nat (length s') + denoted s'
  end.

(** The whitespace characters of Unicode, one by one. *)
Definition whitespace (c : N) : Prop :=
  In c [9; 10; 11; 12; 13; 28; 29; 30; 31; 32; 133; 160; 5760; 8192; 8193;
        8194; 8195; 8196; 8197; 8198; 8199; 8200; 8201; 8202; 8232; 8233;
        8239; 8287; 12288]%N.

(** Text made of whitespace only (the empty text included). *)
Definition blank (s : text) : Prop := Forall whitespace s.

(** Text that neither starts nor ends with whitespace. *)
Definition trimmed (s : text) : Prop :=
  (forall c t, s = c :: t -> ~ whitespace c) /\
  (forall t c, s = (t ++ [c])%list -> ~ whitespace c).

(** A binary64 number that is strictly below ten: minus infinity, a zero,
    or a finite number whose value is. *)
Definition below_ten (v : float) : Prop :=
  match v with
  | S754_nan => False
  | S754_infinity s => s = true
  | S754_zero _ => True
  | S754_finite s m e => (finite_value s m e < 10)%Q
  end.

(** The store after a completed upload of [data] to [path]. *)
Definition uploaded (path : string) (data : bytes) (st : Store) : Store :=
  {| bucket := <[path := {| content := data; content_type := "image/jpeg" |}]> (bucket st);
     readings := readings st |}.

(** The store after a completed write of [doc] under [uid]. *)
Definition written (uid : string) (doc : Doc) (st : Store) : Store :=
  {| bucket := bucket st; readings := <[uid := doc]> (readings st) |}.


(** A call fails on [band] after succeeding on every element before it. *)
Definition first_failure {A B : Type} (f : A -> result B) (l : list A) (msg : string) : Prop :=
  exists before band after,
    l = (before ++ band :: after)%list /\
    Forall (fun c => exists t, f c = Ok t) before /\
    f band = Raise msg.

(** The first step of the [try] block to raise raises [msg], and it is a
    step before the first upload: reading the request, decoding the
    image, locating the display, scoring it, or one of the six recognition
    calls, the primary ones first. *)
Inductive early_failure (TEMPLATE : image_gray) (E : Externals) (request : Request)
    (msg : string) : Prop :=
| bad_request :
    payload request = Raise msg -> early_failure TEMPLATE E request msg
| bad_image b64 :
    payload request = Ok b64 -> decode E b64 = Raise msg ->
    early_failure TEMPLATE E request msg
| not_located b64 img gray :
    payload request = Ok b64 -> decode E b64 = Ok (img, gray) ->
    find_display TEMPLATE E gray = Raise msg ->
    early_failure TEMPLATE E request msg
| not_scored b64 img gray display loc :
    payload request = Ok b64 -> decode E b64 = Ok (img, gray) ->
    find_display TEMPLATE E gray = Ok (display, loc) ->
    lap_var E display = Raise msg ->
    early_failure TEMPLATE E request msg
| primary_failed b64 img gray display loc v :
    payload request = Ok b64 -> decode E b64 = Ok (img, gray) ->
    find_display TEMPLATE E gray = Ok (display, loc) ->
    lap_var E display = Ok v ->
    first_failure (ocr_tess E) (crops_of display) msg ->
    early_failure TEMPLATE E request msg
| secondary_failed b64 img gray display loc v :
    payload request = Ok b64 -> decode E b64 = Ok (img, gray) ->
    find_display TEMPLATE E gray = Ok (display, loc) ->
    lap_var E display = Ok v ->
    Forall (fun c => exists t, ocr_tess E c = Ok t) (crops_of display) ->
    first_failure (ocr_easy E) (crops_of display) msg ->
    early_failure TEMPLATE E request msg.

(** The two object paths of an invocation. *)
Definition orig_path (env : Env) : string := "bp/" ++ uuid4_hex env ++ "_orig.jpg".
Definition heat_path (env : Env) : string := "bp/" ++ uuid4_hex env ++ "_heat.jpg".

(** The photo with the located region marked. *)
Definition annotated (TEMPLATE : image_gray) (E : Externals) (i : image_bgr)
    (dx dy : nat) : image_bgr :=
  rectangle E i (dx, dy) (dx + ROI_W TEMPLATE, dy + ROI_H TEMPLATE).

(** The display is located in [gray] at [(dx, dy)] and scored [v], and the
    two recognisers read [p0], [p1], [p2] and [s0], [s1], [s2] off its
    three bands. *)
Definition read_off (TEMPLATE : image_gray) (E : Externals) (gray : image_gray)
    (display : image_gray) (dx dy : nat) (v : float)
    (p0 p1 p2 s0 s1 s2 : text) : Prop :=
  exists sys dia pul,
    find_display TEMPLATE E gray = Ok (display, (dx, dy)) /\
    lap_var E display = Ok v /\
    crops_of display = [sys; dia; pul] /\
    (ocr_tess E sys = Ok p0 /\ ocr_tess E dia = Ok p1 /\ ocr_tess E pul = Ok p2) /\
    (ocr_easy E sys = Ok s0 /\ ocr_easy E dia = Ok s1 /\ ocr_easy E pul = Ok s2).

(** Locating, scoring or reading the display raises [msg]. *)
Definition unreadable (TEMPLATE : image_gray) (E : Externals) (gray : image_gray)
    (msg : string) : Prop :=
  find_display TEMPLATE E gray = Raise msg \/
  exists display loc,
    find_display TEMPLATE E gray = Ok (display, loc) /\
    (lap_var E display = Raise msg \/
     exists v,
       lap_var E display = Ok v /\
       (first_failure (ocr_tess E) (crops_of display) msg \/
        (Forall (fun c => exists t, ocr_tess E c = Ok t) (crops_of display) /\
         first_failure (ocr_easy E) (crops_of display) msg))).

(** Every step before the first upload returns: the request holds a
    payload, the payload decodes to the photo [i], and the display is
    located, scored and read. *)
Definition recognised (TEMPLATE : image_gray) (E : Externals) (request : Request)
    (i : image_bgr) (display : image_gray) (dx dy : nat) (v : float)
    (p0 p1 p2 s0 s1 s2 : text) : Prop :=
  exists b64 gray,
    payload request = Ok b64 /\ decode E b64 = Ok (Some i, gray) /\
    read_off TEMPLATE E gray display dx dy v p0 p1 p2 s0 s1 s2.

(** The image is encoded to [buf] and the upload of [buf] completes. *)
Definition upload_completes (E : Externals) (path : string) (img : image_bgr)
    (buf : bytes) : Prop :=
  imencode E img = Ok buf /\ upload_fault E path buf = None.

(** The encoding of the image, or the upload of the encoded image,
    raises [msg]. *)
Definition upload_fails (E : Externals) (path : string) (img : image_bgr)
    (msg : string) : Prop :=
  imencode E img = Raise msg \/
  exists buf, imencode E img = Ok buf /\ upload_fault E path buf = Some msg.

(** Both uploads complete, with contents [buf] and [buf']. *)
Definition images_stored (TEMPLATE : image_gray) (E : Externals) (env : Env)
    (i : image_bgr) (display : image_gray) (dx dy : nat) (buf buf' : bytes) : Prop :=
  upload_completes E (orig_path env) (annotated TEMPLATE E i dx dy) buf /\
  exists heat,
    applyColorMap E display = Ok heat /\
    upload_completes E (heat_path env) heat buf'.

(** The three numbers are parsed from the primary texts. *)
Definition parsed (p0 p1 p2 : text) (n0 n1 n2 : option Z) : Prop :=
  parse_field p0 = Ok n0 /\ parse_field p1 = Ok n1 /\ parse_field p2 = Ok n2.

(** The record made of a score, six texts and three parsed numbers. *)
Definition record_of (E : Externals) (env : Env) (v : float)
    (p0 p1 p2 s0 s1 s2 : text) (n0 n1 n2 : option Z) : Doc :=
  {| timestamp := utcnow_isoformat env;
     glare_detected := less v VAR_THRESHOLD;
     variance := round2 E v;
     image_url := public_url E (orig_path env);
     heatmap_url := public_url E (heat_path env);
     ocr_raw := {[ "sys" := p0; "dia" := p1; "pul" := p2 ]};
     consensus := list_eqb [p0; p1; p2] [s0; s1; s2];
     ocr_alternates :=
       {[ "sys" := [p0; s0]; "dia" := [p1; s1]; "pul" := [p2; s2] ]};
     systolic := n0;
     diastolic := n1;
     pulse := n2 |}.

(** The ways in which an invocation that starts in [st] ends with the
    message [msg], each with the store it leaves: a step before the first
    upload raises; the first upload fails; the first upload completes and
    the colour map or the second upload fails; both uploads complete and
    one of the three texts makes [int] raise; the record is built and its
    write fails; the record is written and its encoding for the answer
    fails. *)
Inductive failure (TEMPLATE : image_gray) (E : Externals) (request : Request)
    (env : Env) (st : Store) (msg : string) : Store -> Prop :=
| fails_before_uploads :
    early_failure TEMPLATE E request msg ->
    failure TEMPLATE E request env st msg st
| fails_at_photo i display dx dy v p0 p1 p2 s0 s1 s2 :
    recognised TEMPLATE E request i display dx dy v p0 p1 p2 s0 s1 s2 ->
    upload_fails E (orig_path env) (annotated TEMPLATE E i dx dy) msg ->
    failure TEMPLATE E request env st msg st
| fails_at_heat_map i display dx dy v p0 p1 p2 s0 s1 s2 buf :
    recognised TEMPLATE E request i display dx dy v p0 p1 p2 s0 s1 s2 ->
    upload_completes E (orig_path env) (annotated TEMPLATE E i dx dy) buf ->
    (applyColorMap E display = Raise msg \/
     exists heat,
       applyColorMap E display = Ok heat /\ upload_fails E (heat_path env) heat msg) ->
    failure TEMPLATE E request env st msg (uploaded (orig_path env) buf st)
| fails_at_numbers i display dx dy v p0 p1 p2 s0 s1 s2 buf buf' :
    recognised TEMPLATE E request i display dx dy v p0 p1 p2 s0 s1 s2 ->
    images_stored TEMPLATE E env i display dx dy buf buf' ->
    first_failure parse_field [p0; p1; p2] msg ->
    failure TEMPLATE E request env st msg
      (uploaded (heat_path env) buf' (uploaded (orig_path env) buf st))
| fails_at_write i display dx dy v p0 p1 p2 s0 s1 s2 buf buf' n0 n1 n2 :
    recognised TEMPLATE E request i display dx dy v p0 p1 p2 s0 s1 s2 ->
    images_stored TEMPLATE E env i display dx dy buf buf' ->
    parsed p0 p1 p2 n0 n1 n2 ->
    set_fault E (uuid4_hex env) (record_of E env v p0 p1 p2 s0 s1 s2 n0 n1 n2)
    = Some msg ->
    failure TEMPLATE E request env st msg
      (uploaded (heat_path env) buf' (uploaded (orig_path env) buf st))
| fails_at_answer i display dx dy v p0 p1 p2 s0 s1 s2 buf buf' n0 n1 n2 :
    recognised TEMPLATE E request i display dx dy v p0 p1 p2 s0 s1 s2 ->
    images_stored TEMPLATE E env i display dx dy buf buf' ->
    parsed p0 p1 p2 n0 n1 n2 ->
    set_fault E (uuid4_hex env) (record_of E env v p0 p1 p2 s0 s1 s2 n0 n1 n2)
    = None ->
    json_dumps (record_of E env v p0 p1 p2 s0 s1 s2 n0 n1 n2) = Raise msg ->
    failure TEMPLATE E request env st msg
      (written (uuid4_hex env) (record_of E env v p0 p1 p2 s0 s1 s2 n0 n1 n2)
         (uploaded (heat_path env) buf' (uploaded (orig_path env) buf st))).

(** The invocation builds the record [d]: every step before the record
    write returns, [d] is the dictionary handed to the write, and [st1] is
    the store at that point. *)
Definition builds (TEMPLATE : image_gray) (E : Externals) (request : Request)
    (env : Env) (st : Store) (d : Doc) (st1 : Store) : Prop :=
  exists b64 img gray,
    payload request = Ok b64 /\ decode E b64 = Ok (img, gray) /\
    assemble TEMPLATE E img gray env st = (Ok d, st1).

Definition is_string (v : json) : Prop := exists s, v = JString s.
Definition is_object (v : json) : Prop := exists o, v = JObject o.

(** A step whose result does not depend on the store it starts from. *)
Definition store_blind {A : Type} (m : M A) : Prop :=
  forall st1 st2, (m st1).1 = (m st2).1.

Module Sample.

Definition one : float := S754_finite false 4503599627370496 (-52).
Definition zero : float := S754_zero false.

(** A template of 6 rows by 4 columns whose three bands are filled with
    120, 80 and 72. *)
Definition band_value (r : nat) : Z :=
  if r <? 2 then 120%Z else if r <? 4 then 80%Z else 72%Z.

Definition template : image_gray :=
  {| shape0 := 6; shape1 := 4; px := fun r _ => band_value r |}.

(** A photo of 8 rows by 7 columns with the display at row 1, column 2. *)
Definition photo : image_bgr :=
  {| shape0 := 8; shape1 := 7;
     px := fun r c =>
       if (1 <=? r) && (r <? 7) && (2 <=? c) && (c <? 6)
       then (band_value (r - 1), 0%Z, 0%Z) else (0%Z, 0%Z, 0%Z) |}.

Definition text_of (z : Z) : text :=
  if (z =? 120)%Z then ascii_text "120" else if (z =? 80)%Z then ascii_text "80"
  else if (z =? 72)%Z then ascii_text "72" else [].

(** The digits of a band as the first engine gives them: after a space,
    and followed by a line feed and a form feed. *)
Definition padded (z : Z) : text := ([32%N] ++ text_of z ++ [10%N; 12%N])%list.

(** The digits of a band between a no-break space and an em space, and a
    next-line character and an ideographic space. *)
Definition wide (z : Z) : text :=
  ([160%N; 8195%N] ++ text_of z ++ [133%N; 12288%N])%list.


(** A world in which every engine answers; [raw] is the first engine's
    text for a band of a given pixel value, [bad] the pixel value on which
    the second recogniser raises, [faulty] the object path whose upload
    fails, [unwritable] the record identifier whose write fails.  The
    second engine gives its text in two fragments. *)
Definition world (raw : Z -> text) (bad : Z) (faulty unwritable : string) : Externals :=
  {| b64decode := fun s => Ok [];
     imdecode := fun _ => Ok (Some photo);
     bgr2gray := fun i =>
       {| shape0 := shape0 i; shape1 := shape1 i; px := fun r c => (px i r c).1.1 |};
     ccoeff_normed := fun w t =>
       if forallb (fun r => (px w r 0 =? px t r 0)%Z) (seq 0 (shape0 t))
            && (px w 0 (shape1 t - 1) =? px t 0 (shape1 t - 1))%Z
       then one else zero;
     laplacian_var := fun _ => Ok one;
     image_to_string := fun i => Ok (raw (px i 0 0));
     readtext := fun i =>
       if (px i 0 0 =? bad)%Z then Raise "recogniser failed"
       else Ok [take 1 (text_of (px i 0 0)); drop 1 (text_of (px i 0 0))];
     rectangle := fun i _ _ => i;
     applyColorMap := fun g =>
       Ok {| shape0 := shape0 g; shape1 := shape1 g; px := fun r c => (px g r c, 0%Z, 0%Z) |};
     imencode := fun _ => Ok [];
     upload_fault := fun path _ =>
       if String.eqb path faulty then Some "upload failed" else None;
     public_url := fun path => "https://storage.googleapis.com/b/" ++ path;
     round2 := fun v => v;
     set_fault := fun uid _ =>
       if String.eqb uid unwritable then Some "write failed" else None |}.

Definition request : Request :=
  {| get_json := Ok (JObject {[ "image_base64" := JString "data:image/jpeg;base64,QUJD" ]}) |}.

Definition env : Env := {| utcnow_isoformat := "2024-01-01T00:00:00"; uuid4_hex := "u1" |}.

Definition empty_store : Store := {| bucket := ∅; readings := ∅ |}.

(** A pattern of 9 rows by 8 columns: larger than [photo] both ways. *)
Definition large_template : image_gray :=
  {| shape0 := 9; shape1 := 8; px := fun r _ => band_value r |}.


(** The world in which no engine and no store fails. *)
Definition calm : Externals := world padded (-1) "" "".

(** The world in which the second recogniser raises on the middle band. *)
Definition second_fails : Externals := world padded 80 "" "".

(** The world in which the upload of the heat map fails. *)
Definition heat_upload_fails : Externals := world padded (-1) "bp/u1_heat.jpg" "".



(** The world in which the first engine pads with non-ASCII whitespace. *)
Definition wide_spaces : Externals := world wide (-1) "" "".

(** The record that the calm world builds from [request]: the display
    reads 120, 80 and 72, and both recognisers agree. *)
Definition reading : Doc :=
  {| timestamp := "2024-01-01T00:00:00";
     glare_detected := True_;
     variance := one;
     image_url := "https://storage.googleapis.com/b/bp/u1_orig.jpg";
     heatmap_url := "https://storage.googleapis.com/b/bp/u1_heat.jpg";
     ocr_raw :=
       {[ "sys" := ascii_text "120"; "dia" := ascii_text "80"; "pul" := ascii_text "72" ]};
     consensus := true;
     ocr_alternates :=
       {[ "sys" := [ascii_text "120"; ascii_text "120"];
          "dia" := [ascii_text "80"; ascii_text "80"];
          "pul" := [ascii_text "72"; ascii_text "72"] ]};
     systolic := Some 120%Z;
     diastolic := Some 80%Z;
     pulse := Some 72%Z |}.

(** The grey version of [photo]. *)
Definition gray : image_gray := bgr2gray calm photo.

(** The store after the upload of the annotated photo alone. *)
Definition photo_only : Store := uploaded "bp/u1_orig.jpg" [] empty_store.

(** The store after both uploads and no record write. *)
Definition both_images : Store := uploaded "bp/u1_heat.jpg" [] photo_only.

(** The store after both uploads and the write of [reading]. *)
Definition stored : Store := written "u1" reading both_images.

(** The world in which the decoded data is no image. *)
Definition no_image : Externals :=
  {| b64decode := b64decode calm;
     imdecode := fun _ => Ok None;
     bgr2gray := bgr2gray calm;
     ccoeff_normed := ccoeff_normed calm;
     laplacian_var := laplacian_var calm;
     image_to_string := image_to_string calm;
     readtext := readtext calm;
     rectangle := rectangle calm;
     applyColorMap := applyColorMap calm;
     imencode := imencode calm;
     upload_fault := upload_fault calm;
     public_url := public_url calm;
     round2 := round2 calm;
     set_fault := set_fault calm |}.

End Sample.

(** * Properties *)

(** ** Characters *)

Lemma isspace_char_whitespace (c : N) :
  str.isspace_char c = true <-> whitespace c.
Proof.
  unfold str.isspace_char, whitespace. cbn [In].
  rewrite !orb_true_iff, !andb_true_iff, !N.leb_le, !N.eqb_eq. lia.
Qed.

Lemma isspace_char_not_whitespace (c : N) :
  str.isspace_char c = false <-> ~ whitespace c.
Proof.
  rewrite <- isspace_char_whitespace. destruct (str.isspace_char c); split; congruence.
Qed.

Lemma decimal_value_digit (c : N) :
  decimal_digit c -> str.decimal_value c = Some (c - 48)%N.
Proof.
  unfold decimal_digit. intros Hc.
  assert (H : (c = 48 \/ c = 49 \/ c = 50 \/ c = 51 \/ c = 52 \/ c = 53 \/ c = 54
               \/ c = 55 \/ c = 56 \/ c = 57)%N) by lia.
  repeat (destruct H as [-> | H]; [ reflexivity | ]). subst c. reflexivity.
Qed.

Lemma decimal_value_bound (c d : N) :
  str.decimal_value c = Some d -> (d < 10)%N.
Proof.
  unfold str.decimal_value.
  destruct (find _ str.decimal_zeros) as [z |] eqn:Hfind; [ | discriminate ].
  intros [= <-]. apply find_some in Hfind as [_ Hz].
  apply andb_true_iff in Hz as [Hlo Hhi].
  apply N.leb_le in Hlo. apply N.ltb_lt in Hhi. lia.
Qed.

Lemma decimal_digit_not_whitespace (c : N) : decimal_digit c -> ~ whitespace c.
Proof.
  unfold decimal_digit, whitespace. cbn [In]. lia.
Qed.

(** ** Numerals *)

Lemma isdigit_numeral (s : text) :
  s <> [] -> Forall decimal_digit s -> str.isdigit s = true.
Proof.
  intros Hne Hall. destruct s as [| c s]; [ congruence | ].
  unfold str.isdigit. apply forallb_forall. intros x Hx.
  rewrite Forall_forall in Hall. unfold str.isdigit_char.
  rewrite (decimal_value_digit x) by (apply Hall; rewrite <- list_elem_of_In in Hx; exact Hx).
  reflexivity.
Qed.

Lemma decimal_prefix_numeral (s : text) :
  Forall decimal_digit s ->
  str.decimal_prefix s = (map (fun c => (c - 48)%N) s, []).
Proof.
  induction 1 as [| c s Hc _ IH]; [ reflexivity | ].
  cbn [str.decimal_prefix map]. rewrite (decimal_value_digit c Hc), IH. reflexivity.
Qed.

Lemma decimal_prefix_length (s : text) (ds : list N) (rest : text) :
  str.decimal_prefix s = (ds, rest) -> length s = length ds + length rest.
Proof.
  revert ds rest. induction s as [| c s IH]; intros ds rest; cbn [str.decimal_prefix].
  - intros [= <- <-]. reflexivity.
  - destruct (str.decimal_value c) as [d |].
    + destruct (str.decimal_prefix s) as [ds' rest'].
      intros [= <- <-]. cbn. rewrite (IH ds' rest' eq_refl). reflexivity.
    + intros [= <- <-]. reflexivity.
Qed.

Lemma decimal_prefix_values (s : text) (ds : list N) (rest : text) :
  str.decimal_prefix s = (ds, rest) -> Forall (fun d => (d < 10)%N) ds.
Proof.
  revert ds rest. induction s as [| c s IH]; intros ds rest; cbn [str.decimal_prefix].
  - intros [= <- <-]. constructor.
  - destruct (str.decimal_value c) as [d |] eqn:Hd.
    + destruct (str.decimal_prefix s) as [ds' rest'].
      intros [= <- <-]. constructor; [ exact (decimal_value_bound c d Hd) | eauto ].
    + intros [= <- <-]. constructor.
Qed.

(** Reading digit values from the left, starting from [acc]. *)
Lemma fold_digits_denoted (s : text) (acc : Z) :
  Forall decimal_digit s ->
  fold_left (fun a d => (10 * a + Z.of_N d)%Z) (map (fun c => (c - 48)%N) s) acc
  = (acc * 10 ^ Z.of_nat (length s) + denoted s)%Z.
Proof.
  intros Hall. revert acc. induction Hall as [| c s Hc _ IH]; intros acc.
  - cbn. lia.
  - cbn [map fold_left denoted length]. rewrite IH.
    unfold decimal_digit in Hc.
    rewrite Nat2Z.inj_succ, Z.pow_succ_r by lia.
    rewrite N2Z.inj_sub by lia. change (Z.of_N 48) with 48%Z. ring.
Qed.

Lemma fold_digits_bounds (ds : list N) (acc : Z) :
  Forall (fun d => (d < 10)%N) ds ->
  (acc * 10 ^ Z.of_nat (length ds)
   <= fold_left (fun a d => (10 * a + Z.of_N d)%Z) ds acc
   < (acc + 1) * 10 ^ Z.of_nat (length ds))%Z.
Proof.
  intros Hall. revert acc. induction Hall as [| d ds Hd _ IH]; intros acc.
  - cbn. lia.
  - cbn [fold_left length]. specialize (IH (10 * acc + Z.of_N d)%Z).
    rewrite Nat2Z.inj_succ, Z.pow_succ_r by lia.
    set (w := (10 ^ Z.of_nat (length ds))%Z) in *.
    assert (0 < w)%Z by (apply Z.pow_pos_nonneg; lia).
    nia.
Qed.

(** [int] gives a numeral of at most [max_str_digits] digits its value. *)
Lemma int_numeral (s : text) :
  s <> [] -> Forall decimal_digit s -> length s <= str.max_str_digits ->
  str.int s = Ok (denoted s).
Proof.
  intros Hne Hall Hlen. unfold str.int.
  rewrite (decimal_prefix_numeral s Hall), length_map.
  destruct (Nat.ltb_spec str.max_str_digits (length s)) as [Hgt | _]; [ lia | ].
  destruct s as [| c s]; [ congruence | ].
  cbn [map]. f_equal.
  etransitivity; [ exact (fold_digits_denoted (c :: s) 0 Hall) | lia ].
Qed.

Lemma parse_field_numeral (s : text) :
  s <> [] -> Forall decimal_digit s -> length s <= str.max_str_digits ->
  parse_field s = Ok (Some (denoted s)).
Proof.
  intros Hne Hall Hlen. unfold parse_field.
  rewrite (isdigit_numeral s Hne Hall), (int_numeral s Hne Hall Hlen). reflexivity.
Qed.

(** What a parsed number says about its text. *)
Lemma parse_field_Some (s : text) (n : Z) :
  parse_field s = Ok (Some n) ->
  str.isdigit s = true /\
  exists ds,
    str.decimal_prefix s = (ds, []) /\ ds <> [] /\
    length ds <= str.max_str_digits /\
    n = fold_left (fun a d => (10 * a + Z.of_N d)%Z) ds 0%Z.
Proof.
  unfold parse_field. destruct (str.isdigit s); [ | discriminate ].
  unfold str.int. destruct (str.decimal_prefix s) as [ds rest].
  destruct (Nat.ltb_spec str.max_str_digits (length ds)) as [Hgt | Hle]; [ discriminate | ].
  destruct ds as [| d ds]; [ discriminate | ].
  destruct rest; [ | discriminate ].
  cbn [fmap result_fmap]. intros [= <-].
  split; [ reflexivity | ]. exists (d :: ds). repeat split; [ discriminate | exact Hle ].
Qed.

(** ** Stripping *)

Lemma blank_cons (c : N) (s : text) :
  blank (c :: s) <-> str.isspace_char c = true /\ blank s.
Proof. unfold blank. rewrite Forall_cons, isspace_char_whitespace. reflexivity. Qed.

Lemma blank_nil : blank [].
Proof. constructor. Qed.

Lemma lstrip_blank_prefix (pre s : text) :
  blank pre -> str.lstrip (pre ++ s)%list = str.lstrip s.
Proof.
  induction pre as [| c pre IH]; [ reflexivity | ].
  intros [Hc Hpre]%blank_cons. cbn. rewrite Hc. auto.
Qed.

Lemma lstrip_decompose (s : text) :
  exists pre, blank pre /\ s = (pre ++ str.lstrip s)%list.
Proof.
  induction s as [| c s (pre & Hpre & Hs)].
  - exists []. split; [ apply blank_nil | reflexivity ].
  - cbn. destruct (str.isspace_char c) eqn:Hc.
    + exists (c :: pre). split; [ apply blank_cons; auto | ].
      cbn. f_equal. exact Hs.
    + exists []. split; [ apply blank_nil | reflexivity ].
Qed.

Lemma lstrip_starts_clean (s t : text) (x : N) :
  str.lstrip s = x :: t -> str.isspace_char x = false.
Proof.
  induction s as [| d s IH]; cbn; [ discriminate | ].
  destruct (str.isspace_char d) eqn:Hd; [ exact IH | ].
  intros [= <- _]. exact Hd.
Qed.

Lemma lstrip_clean (s : text) :
  (forall c t, s = c :: t -> str.isspace_char c = false) -> str.lstrip s = s.
Proof.
  destruct s as [| c s]; cbn; [ reflexivity | ].
  intros H. rewrite (H c s eq_refl). reflexivity.
Qed.

Lemma lstrip_blank (s : text) : blank s -> str.lstrip s = [].
Proof.
  induction s as [| c s IH]; [ reflexivity | ].
  intros [Hc Hs]%blank_cons. cbn. rewrite Hc. auto.
Qed.

Lemma rstrip_blank (s : text) : blank s -> str.rstrip s = [].
Proof.
  induction s as [| c s IH]; [ reflexivity | ].
  intros [Hc Hs]%blank_cons. cbn. rewrite (IH Hs), Hc. reflexivity.
Qed.

Lemma rstrip_decompose (s : text) :
  exists post, blank post /\ s = (str.rstrip s ++ post)%list.
Proof.
  induction s as [| c s (post & Hpost & Hs)].
  - exists []. split; [ apply blank_nil | reflexivity ].
  - cbn. destruct (str.rstrip s) as [| d r] eqn:Hr.
    + destruct (str.isspace_char c) eqn:Hc.
      * exists (c :: post). split; [ apply blank_cons; auto | ].
        cbn. f_equal. exact Hs.
      * exists post. split; [ exact Hpost | ]. cbn. f_equal. exact Hs.
    + exists post. split; [ exact Hpost | ]. cbn. f_equal. exact Hs.
Qed.

(** [rstrip] keeps a text that does not end with whitespace. *)
Lemma rstrip_ends_clean (s : text) :
  (forall t c, s = (t ++ [c])%list -> str.isspace_char c = false) ->
  str.rstrip s = s.
Proof.
  induction s as [| c s IH]; intros Hend; [ reflexivity | ].
  cbn. rewrite IH.
  - destruct s as [| d s]; [ | reflexivity ].
    rewrite (Hend [] c eq_refl). reflexivity.
  - intros t x Ht. apply (Hend (c :: t) x). cbn. f_equal. exact Ht.
Qed.

Lemma rstrip_end (s t : text) (c : N) :
  str.rstrip s = (t ++ [c])%list -> str.isspace_char c = false.
Proof.
  revert t. induction s as [| d s IH]; intros t; cbn.
  - destruct t; discriminate.
  - destruct (str.rstrip s) as [| e r] eqn:Hr.
    + destruct (str.isspace_char d) eqn:Hd.
      * destruct t; discriminate.
      * destruct t as [| x t]; cbn.
        -- intros [= <-]. exact Hd.
        -- intros [= _ Ht]. destruct t; discriminate.
    + destruct t as [| x t]; cbn.
      * discriminate.
      * intros [= _ Ht]. apply (IH t). exact Ht.
Qed.

Lemma rstrip_blank_suffix (s post : text) :
  blank post -> str.rstrip (s ++ post)%list = str.rstrip s.
Proof.
  intros Hpost. induction s as [| c s IH].
  - apply rstrip_blank. exact Hpost.
  - cbn. rewrite IH. reflexivity.
Qed.

Lemma rstrip_start (s t : text) (c : N) :
  (forall x u, s = x :: u -> str.isspace_char x = false) ->
  str.rstrip s = c :: t -> str.isspace_char c = false.
Proof.
  destruct s as [| d s]; cbn; [ discriminate | ].
  intros Hstart. specialize (Hstart d s eq_refl).
  destruct (str.rstrip s); [ rewrite Hstart | ]; intros [= <- _]; exact Hstart.
Qed.

Lemma strip_trimmed (s : text) : trimmed (str.strip s).
Proof.
  unfold str.strip. split.
  - intros c t Hs. apply isspace_char_not_whitespace.
    eapply rstrip_start; [ | exact Hs ].
    intros x u Hx. eapply (lstrip_starts_clean s u x). exact Hx.
  - intros t c Hs. apply isspace_char_not_whitespace. eapply rstrip_end. exact Hs.
Qed.

Lemma strip_decompose (s : text) :
  exists pre post, blank pre /\ blank post /\ s = (pre ++ str.strip s ++ post)%list.
Proof.
  destruct (lstrip_decompose s) as (pre & Hpre & Hs).
  destruct (rstrip_decompose (str.lstrip s)) as (post & Hpost & Hl).
  exists pre, post. split; [ exact Hpre | ]. split; [ exact Hpost | ].
  unfold str.strip. rewrite <- Hl. exact Hs.
Qed.

Lemma strip_surrounded (pre mid post : text) :
  blank pre -> blank post -> trimmed mid ->
  str.strip (pre ++ mid ++ post)%list = mid.
Proof.
  intros Hpre Hpost [Hstart Hend]. unfold str.strip.
  rewrite lstrip_blank_prefix by exact Hpre.
  destruct mid as [| c mid].
  - cbn [app]. rewrite (lstrip_blank post Hpost). reflexivity.
  - rewrite lstrip_clean.
    + rewrite rstrip_blank_suffix by exact Hpost. apply rstrip_ends_clean.
      intros t x Ht. apply isspace_char_not_whitespace. exact (Hend t x Ht).
    + cbn. intros x u [= <- _]. apply isspace_char_not_whitespace.
      apply (Hstart c mid). reflexivity.
Qed.

Lemma numeral_trimmed (s : text) : Forall decimal_digit s -> trimmed s.
Proof.
  intros Hall. split.
  - intros c t ->. apply Forall_cons in Hall as [Hc _].
    apply decimal_digit_not_whitespace. exact Hc.
  - intros t c ->. apply Forall_app in Hall as [_ Hc].
    apply Forall_cons in Hc as [Hc _].
    apply decimal_digit_not_whitespace. exact Hc.
Qed.
Lemma contains_cons (c d : ascii) (s : string) :
  str.contains c (String d s) = Ascii.eqb d c || str.contains c s.
Proof.
  unfold str.contains. cbn. destruct (Ascii.eqb d c); reflexivity.
Qed.

Lemma split_nonempty (sep : ascii) (s : string) : str.split sep s <> [].
Proof.
  induction s as [| c s IH]; cbn; [ discriminate | ].
  destruct (Ascii.eqb c sep); [ discriminate | ].
  destruct (str.split sep s); [ discriminate | discriminate ].
Qed.

(** [s.split(sep)] is [[s]] when [s] holds no separator; otherwise its
    last piece is what follows the last separator of [s]. *)
Lemma split_shape (sep : ascii) (s : string) :
  (str.contains sep s = false /\ str.split sep s = [s]) \/
  (exists p t w ws,
      s = p ++ String sep t /\ str.contains sep t = false /\
      str.contains sep s = true /\ str.split sep s = ((w :: ws) ++ [t])%list).
Proof.
  induction s as [| c s IH].
  - left. split; reflexivity.
  - rewrite contains_cons. cbn [str.split].
    destruct (Ascii.eqb_spec c sep) as [-> | Hne]; cbn [orb].
    + right. destruct IH as [[Hfree ->] | (p & t & w & ws & -> & Hfree & _ & ->)].
      * exists EmptyString, s, EmptyString, []. repeat split; [ exact Hfree ].
      * exists (String sep p), t, EmptyString, (w :: ws). repeat split; exact Hfree.
    + destruct IH as [[Hfree ->] | (p & t & w & ws & -> & Hfree & Hc & ->)].
      * left. split; [ exact Hfree | reflexivity ].
      * right. exists (String c p), t, (String c w), ws. repeat split; assumption.
Qed.

Lemma split_last (sep : ascii) (s : string) :
  exists t,
    getitem_last (str.split sep s) = Ok t /\
    str.contains sep t = false /\
    (str.contains sep s = false -> t = s) /\
    (str.contains sep s = true -> exists p, s = p ++ String sep t).
Proof.
  unfold getitem_last.
  destruct (split_shape sep s) as [[Hfree ->] | (p & t & w & ws & Hs & Hfree & Hc & ->)].
  - exists s. cbn. repeat split; [ exact Hfree | ]. congruence.
  - exists t. rewrite last_snoc. repeat split; [ exact Hfree | congruence | ].
    intros _. exists p. exact Hs.
Qed.

(** ** Binary64 numbers and the threshold *)

Lemma digits2_pos_bounds (m : positive) :
  (2 ^ (Z.pos (digits2_pos m) - 1) <= Z.pos m < 2 ^ Z.pos (digits2_pos m))%Z.
Proof.
  induction m as [m IH | m IH |]; cbn [digits2_pos].
  - rewrite Pos2Z.inj_succ.
    replace (Z.succ (Z.pos (digits2_pos m)) - 1)%Z
      with (Z.succ (Z.pos (digits2_pos m) - 1))%Z by lia.
    rewrite !Z.pow_succ_r by lia. lia.
  - rewrite Pos2Z.inj_succ.
    replace (Z.succ (Z.pos (digits2_pos m)) - 1)%Z
      with (Z.succ (Z.pos (digits2_pos m) - 1))%Z by lia.
    rewrite !Z.pow_succ_r by lia. lia.
  - cbn. lia.
Qed.

(** A finite binary64 number has an exponent from -1074 on and fewer than
    54 mantissa bits, exactly 53 of them above the least exponent. *)
Lemma bounded_binary64 (m : positive) (e : Z) :
  bounded prec64 emax64 m e = true ->
  (-1074 <= e)%Z /\ (Z.pos m < 2 ^ 53)%Z /\ (-1074 < e -> 2 ^ 52 <= Z.pos m)%Z.
Proof.
  unfold bounded, canonical_mantissa, fexp, emin, prec64, emax64.
  intros H. apply andb_true_iff in H as [Hc _]. apply Z.eqb_eq in Hc.
  pose proof (digits2_pos_bounds m) as [Hlo Hhi].
  set (d := Z.pos (digits2_pos m)) in *.
  assert (Hd : (0 < d)%Z) by (subst d; lia).
  assert (Hcases : (d = 53 /\ -1074 <= e)%Z \/ (d <= 53 /\ e = -1074)%Z) by lia.
  split; [ lia | ]. split.
  - apply Z.lt_le_trans with (1 := Hhi).
    apply Z.pow_le_mono_r; lia.
  - intros He. destruct Hcases as [[Hd53 _] | [_ He']]; [ | lia ].
    rewrite Hd53 in Hlo. exact Hlo.
Qed.

Lemma two_power_pos (e : Z) : (0 < 2 ^ e)%Q.
Proof. apply Qpower_0_lt. reflexivity. Qed.

(** Comparing the value of a positive finite number with ten, in integers. *)
Lemma finite_value_below_ten (m : positive) (e : Z) :
  (-1074 <= e)%Z ->
  (finite_value false m e < 10)%Q <->
  (Z.pos m * 2 ^ (e + 1074) < 10 * 2 ^ 1074)%Z.
Proof.
  intros He. unfold finite_value.
  rewrite <- (Qmult_lt_r _ _ (2 ^ 1074)%Q) by apply two_power_pos.
  rewrite Zlt_Qlt, !inject_Z_mult, !Zpower_Qpower by lia.
  assert (Hsplit : (inject_Z 2 ^ (e + 1074) == 2 ^ e * 2 ^ 1074)%Q).
  { apply Qpower_plus. discriminate. }
  rewrite Hsplit.
  assert (Hl : (1 * inject_Z (Z.pos m) * 2 ^ e * 2 ^ 1074
                == inject_Z (Z.pos m) * (2 ^ e * 2 ^ 1074))%Q) by ring.
  rewrite Hl. reflexivity.
Qed.

Lemma negative_value_below_ten (m : positive) (e : Z) :
  (finite_value true m e < 10)%Q.
Proof.
  unfold finite_value.
  assert (Hpos : (0 < inject_Z (Z.pos m) * 2 ^ e)%Q).
  { apply Qmult_lt_0_compat; [ reflexivity | apply two_power_pos ]. }
  assert (Heq : (-1 * inject_Z (Z.pos m) * 2 ^ e
                 == - (inject_Z (Z.pos m) * 2 ^ e))%Q) by ring.
  rewrite Heq. lra.
Qed.

(** The three ways a positive finite binary64 number compares with
    [VAR_THRESHOLD], whose mantissa is [5 * 2^50] and exponent [-49]. *)

Lemma same_exponent_below_ten (m : positive) :
  (Z.pos m * 2 ^ (-49 + 1074) < 10 * 2 ^ 1074)%Z <->
  (m < 5629499534213120)%positive.
Proof.
  assert (Hten : (10 * 2 ^ 1074 = 5629499534213120 * 2 ^ (-49 + 1074))%Z)
    by (vm_compute; reflexivity).
  rewrite Hten, <- Z.mul_lt_mono_pos_r by (vm_compute; reflexivity).
  reflexivity.
Qed.

Lemma smaller_exponent_below_ten (m : positive) (e : Z) :
  (-1074 <= e < -49)%Z -> (Z.pos m < 2 ^ 53)%Z ->
  (Z.pos m * 2 ^ (e + 1074) < 10 * 2 ^ 1074)%Z.
Proof.
  intros He Hm.
  assert (Hpow : (2 ^ (e + 1074) <= 2 ^ 1024)%Z) by (apply Z.pow_le_mono_r; lia).
  apply Z.le_lt_trans with (Z.pos m * 2 ^ 1024)%Z.
  - apply Z.mul_le_mono_nonneg_l; [ lia | exact Hpow ].
  - apply Z.lt_le_trans with (2 ^ 53 * 2 ^ 1024)%Z.
    + apply Z.mul_lt_mono_pos_r; [ vm_compute; reflexivity | exact Hm ].
    + vm_compute. discriminate.
Qed.

Lemma larger_exponent_above_ten (m : positive) (e : Z) :
  (-49 < e)%Z -> (2 ^ 52 <= Z.pos m)%Z ->
  (10 * 2 ^ 1074 <= Z.pos m * 2 ^ (e + 1074))%Z.
Proof.
  intros He Hm.
  assert (Hpow : (2 ^ 1026 <= 2 ^ (e + 1074))%Z) by (apply Z.pow_le_mono_r; lia).
  apply Z.le_trans with (2 ^ 52 * 2 ^ 1026)%Z; [ vm_compute; discriminate | ].
  apply Z.le_trans with (Z.pos m * 2 ^ 1026)%Z.
  - apply Z.mul_le_mono_nonneg_r; [ vm_compute; discriminate | exact Hm ].
  - apply Z.mul_le_mono_nonneg_l; [ lia | exact Hpow ].
Qed.

(** [v < VAR_THRESHOLD] holds exactly for the numbers strictly below ten. *)
Lemma ltb_VAR_THRESHOLD (v : float) :
  valid_binary prec64 emax64 v = true ->
  SFltb v VAR_THRESHOLD = true <-> below_ten v.
Proof.
  intros Hv. unfold SFltb, SFcompare, VAR_THRESHOLD, below_ten.
  destruct v as [s | s | | s m e].
  - split; [ intros _; exact I | reflexivity ].
  - destruct s; split; intros H; first [ reflexivity | discriminate H ].
  - split; [ discriminate | intros [] ].
  - destruct s.
    + split; [ intros _; apply negative_value_below_ten | reflexivity ].
    + apply bounded_binary64 in Hv as (He & Hhi & Hlo).
      rewrite finite_value_below_ten by exact He.
      destruct (Z.compare_spec e (-49)) as [-> | Hlt | Hgt].
      * rewrite same_exponent_below_ten, <- Pos.compare_lt_iff.
        unfold Pos.compare.
        destruct (Pos.compare_cont Eq m 5629499534213120);
          split; intros H; first [ reflexivity | discriminate H ].
      * split; [ intros _ | reflexivity ].
        apply smaller_exponent_below_ten; [ lia | exact Hhi ].
      * split; [ discriminate | ]. intros H. exfalso.
        apply (Z.lt_irrefl (10 * 2 ^ 1074)).
        eapply Z.le_lt_trans; [ | exact H ].
        apply larger_exponent_above_ten; [ exact Hgt | apply Hlo; lia ].
Qed.

(** ** Running the monad *)

Lemma fmap_Ok_inv {A B : Type} (g : A -> B) (m : result A) (b : B) :
  g <$> m = Ok b -> exists a, m = Ok a /\ b = g a.
Proof. destruct m as [a | msg]; cbn; [ | discriminate ]. intros [= <-]. eauto. Qed.

(** [upload_blob] either raises and leaves the store alone, or stores the
    encoded image and returns its address. *)
Lemma upload_blob_outcome (E : Externals) path img st r st' :
  upload_blob E path img st = (r, st') ->
  (is_Raise r /\ st' = st) \/
  (exists buf, imencode E img = Ok buf /\ upload_fault E path buf = None /\
               r = Ok (public_url E path) /\ st' = uploaded path buf st).
Proof.
  unfold upload_blob, upload_from_string, mbind, M_bind, lift, mret, M_ret, is_Raise.
  destruct (imencode E img) as [buf | msg]; [ | intros [= <- <-]; left; eauto ].
  destruct (upload_fault E path buf) as [msg |] eqn:Hfault; intros [= <- <-].
  - left. eauto.
  - right. exists buf. repeat split; [ exact Hfault ].
Qed.

(** ** The locator *)

Lemma fold_left_choice {A B : Type} (pick : A -> B -> bool) (inj : B -> A)
    (l : list B) (init : A) :
  let r := fold_left (fun best cell => if pick best cell then inj cell else best) l init in
  r = init \/ exists cell, In cell l /\ r = inj cell.
Proof.
  revert init. induction l as [| b l IH]; intros init; cbn.
  - left. reflexivity.
  - destruct (IH (if pick init b then inj b else init)) as [-> | (cell & Hin & ->)].
    + destruct (pick init b); [ right; exists b; auto | left; reflexivity ].
    + right. exists cell. auto.
Qed.

(** The scan ends on a cell of the matrix. *)
Lemma scan_in_bounds (better : float -> float -> bool) (res : ndarray float) :
  0 < shape0 res -> 0 < shape1 res ->
  (cv2.scan better res).1 < shape0 res /\ (cv2.scan better res).2 < shape1 res.
Proof.
  intros Hrows Hcols. unfold cv2.scan.
  destruct (fold_left_choice
              (fun best cell => better (px res cell.1 cell.2) (px res best.1 best.2))
              (fun cell => cell)
              (list_prod (seq 0 (shape0 res)) (seq 0 (shape1 res))) (0, 0))
    as [-> | ([r c] & Hin & ->)].
  - split; assumption.
  - apply in_prod_iff in Hin as [Hr Hc].
    apply in_seq in Hr. apply in_seq in Hc. cbn. lia.
Qed.

(** On an image at least as large as the pattern the matcher does not
    exchange its arguments. *)
Lemma matchTemplate_fits (E : Externals) (image templ : image_gray) :
  shape0 templ <= shape0 image -> shape1 templ <= shape1 image ->
  cv2.matchTemplate E image templ = Ok (cv2.score_map E image templ).
Proof.
  intros H0 H1. unfold cv2.matchTemplate.
  destruct (Nat.ltb_spec (shape0 image) (shape0 templ)); [ lia | ].
  destruct (Nat.ltb_spec (shape1 image) (shape1 templ)); [ lia | ].
  reflexivity.
Qed.


(** C7: on a grey image at least as large as the template in both
    dimensions, the locator returns a region of exactly the template's
    height and width, cut out of the image at an offset (x, y) at which the
    region fits entirely inside the image. *)
Theorem C7_locator_region (TEMPLATE : image_gray) (E : Externals) (gray : image_gray) :
  ROI_H TEMPLATE <= shape0 gray -> ROI_W TEMPLATE <= shape1 gray ->
  exists display x y,
    find_display TEMPLATE E gray = Ok (display, (x, y)) /\
    shape0 display = ROI_H TEMPLATE /\ shape1 display = ROI_W TEMPLATE /\
    x + ROI_W TEMPLATE <= shape1 gray /\ y + ROI_H TEMPLATE <= shape0 gray /\
    forall r c, px display r c = px gray (y + r) (x + c).
Proof.
  unfold ROI_H, ROI_W. intros Hrows Hcols.
  unfold find_display. rewrite matchTemplate_fits by assumption.
  cbn [mbind result_bind]. unfold cv2.minMaxLoc.
  set (res := cv2.score_map E gray TEMPLATE).
  destruct (scan_in_bounds (fun a b => SFltb b a) res) as [Hy Hx];
    [ cbn; lia | cbn; lia | ].
  set (hi := cv2.scan (fun a b => SFltb b a) res) in *.
  cbn [shape0 shape1 res cv2.score_map] in Hy, Hx.
  eexists _, hi.2, hi.1. split; [ reflexivity | ].
  unfold ROI_H, ROI_W. cbn [slice shape0 shape1 px].
  repeat split; try lia; reflexivity.
Qed.

Lemma C7_locator_region_witness :
  exists display x y,
    find_display Sample.template Sample.calm (bgr2gray Sample.calm Sample.photo) = Ok (display, (x, y)) /\
    shape0 display = ROI_H Sample.template /\ shape1 display = ROI_W Sample.template /\
    x + ROI_W Sample.template <= shape1 (bgr2gray Sample.calm Sample.photo) /\
    y + ROI_H Sample.template <= shape0 (bgr2gray Sample.calm Sample.photo) /\
    forall r c, px display r c = px (bgr2gray Sample.calm Sample.photo) (y + r) (x + c).
Proof.
  apply (C7_locator_region Sample.template Sample.calm (bgr2gray Sample.calm Sample.photo)); cbn; lia.
Defined.

(** ** Steps of the invocation *)

Lemma run_lift_Ok {A B : Type} (r : result A) (a : A) (f : A -> M B) (st : Store) :
  r = Ok a -> (lift r ≫= f) st = f a st.
Proof. intros ->. reflexivity. Qed.

Lemma run_lift_Raise {A B : Type} (r : result A) (msg : string) (f : A -> M B)
    (st : Store) :
  r = Raise msg -> (lift r ≫= f) st = (Raise msg, st).
Proof. intros ->. reflexivity. Qed.

Lemma run_bind_Ok {A B : Type} (m : M A) (a : A) (f : A -> M B) (st st1 : Store) :
  m st = (Ok a, st1) -> (m ≫= f) st = f a st1.
Proof. intros H. unfold mbind, M_bind. rewrite H. reflexivity. Qed.

Lemma run_bind_Raise {A B : Type} (m : M A) (msg : string) (f : A -> M B)
    (st st1 : Store) :
  m st = (Raise msg, st1) -> (m ≫= f) st = (Raise msg, st1).
Proof. intros H. unfold mbind, M_bind. rewrite H. reflexivity. Qed.

Lemma upload_blob_completes (E : Externals) path img buf st :
  upload_completes E path img buf ->
  upload_blob E path img st = (Ok (public_url E path), uploaded path buf st).
Proof.
  intros [Hbuf Hfault]. unfold upload_blob, upload_from_string.
  rewrite (run_lift_Ok _ buf) by exact Hbuf.
  unfold mbind, M_bind. rewrite Hfault. reflexivity.
Qed.

Lemma upload_blob_fails (E : Externals) path img msg st :
  upload_fails E path img msg -> upload_blob E path img st = (Raise msg, st).
Proof.
  unfold upload_blob, upload_from_string.
  intros [Hbuf | (buf & Hbuf & Hfault)].
  - rewrite (run_lift_Raise _ msg) by exact Hbuf. reflexivity.
  - rewrite (run_lift_Ok _ buf) by exact Hbuf.
    unfold mbind, M_bind. rewrite Hfault. reflexivity.
Qed.

Lemma upload_cases (E : Externals) path img :
  (exists msg, upload_fails E path img msg) \/
  (exists buf, upload_completes E path img buf).
Proof.
  unfold upload_fails, upload_completes.
  destruct (imencode E img) as [buf | msg] eqn:Hbuf; [ | left; eauto ].
  destruct (upload_fault E path buf) as [msg |] eqn:Hfault; [ left | right ]; eauto.
Qed.

(** Encoding a record always raises: its flag [glare_detected] is a
    [numpy.bool_], and that key comes second. *)
Lemma json_dumps_doc (d : Doc) :
  json_dumps d = Raise "Object of type bool_ is not JSON serializable".
Proof. reflexivity. Qed.

Lemma comprehension_all_Ok {A B : Type} (f : A -> result B) (l : list A) :
  Forall (fun c => exists t, f c = Ok t) l -> exists ts, comprehension f l = Ok ts.
Proof.
  induction 1 as [| a l [t Ht] _ [ts IH]]; cbn.
  - exists []. reflexivity.
  - rewrite Ht, IH. exists (t :: ts). reflexivity.
Qed.

Lemma comprehension_first_failure {A B : Type} (f : A -> result B) (l : list A) msg :
  first_failure f l msg -> comprehension f l = Raise msg.
Proof.
  intros (before & band & after & -> & Hbefore & Hband).
  induction Hbefore as [| a l [t Ht] _ IH]; cbn.
  - rewrite Hband. reflexivity.
  - rewrite Ht. cbn. rewrite IH. reflexivity.
Qed.

(** A comprehension returns, every call having returned, or has a first
    failing call. *)
Lemma comprehension_cases {A B : Type} (f : A -> result B) (l : list A) :
  Forall (fun c => exists t, f c = Ok t) l \/ exists msg, first_failure f l msg.
Proof.
  induction l as [| a l [IH | (msg & before & band & after & -> & Hbefore & Hband)]].
  - left. constructor.
  - destruct (f a) as [t | msg] eqn:Ha.
    + left. constructor; eauto.
    + right. exists msg, [], a, l. repeat split; [ constructor | exact Ha ].
  - destruct (f a) as [t | msg'] eqn:Ha.
    + right. exists msg, (a :: before), band, after.
      repeat split; [ constructor; eauto | exact Hband ].
    + right. exists msg', [], a, (before ++ band :: after)%list.
      repeat split; [ constructor | exact Ha ].
Qed.

Lemma first_failure_three {A B : Type} (f : A -> result B) (a b c : A) (msg : string) :
  first_failure f [a; b; c] msg ->
  f a = Raise msg \/
  (exists x, f a = Ok x /\ f b = Raise msg) \/
  (exists x y, f a = Ok x /\ f b = Ok y /\ f c = Raise msg).
Proof.
  intros (before & band & after & Hl & Hbefore & Hband).
  destruct before as [| a' before]; cbn in Hl.
  { injection Hl as <- _. auto. }
  injection Hl as <- Hl. apply Forall_cons in Hbefore as [[x Hx] Hbefore].
  destruct before as [| b' before]; cbn in Hl.
  { injection Hl as <- _. right. left. eauto. }
  injection Hl as <- Hl. apply Forall_cons in Hbefore as [[y Hy] Hbefore].
  destruct before as [| c' before]; cbn in Hl.
  { injection Hl as <- _. right. right. eauto. }
  injection Hl as _ Hl. destruct before; discriminate Hl.
Qed.

Lemma decode_Some (E : Externals) b64 img gray :
  decode E b64 = Ok (img, gray) -> exists i, img = Some i.
Proof.
  unfold decode. destruct (b64decode E b64) as [raw |]; [ | discriminate ].
  cbn. destruct (imdecode E raw) as [[i |] |]; cbn; try discriminate.
  intros [= <- _]. eauto.
Qed.

Lemma all_Ok_three {A B : Type} (f : A -> result B) (a b c : A) :
  Forall (fun x => exists t, f x = Ok t) [a; b; c] ->
  exists x y z, f a = Ok x /\ f b = Ok y /\ f c = Ok z.
Proof.
  intros H. apply Forall_cons in H as [[x Hx] H].
  apply Forall_cons in H as [[y Hy] H]. apply Forall_cons in H as [[z Hz] _].
  eauto 7.
Qed.

(** The display is read off the image, or a step up to there raises. *)
Lemma read_cases (TEMPLATE : image_gray) (E : Externals) (gray : image_gray) :
  (exists msg, unreadable TEMPLATE E gray msg) \/
  (exists display dx dy v p0 p1 p2 s0 s1 s2,
      read_off TEMPLATE E gray display dx dy v p0 p1 p2 s0 s1 s2).
Proof.
  unfold unreadable, read_off.
  destruct (find_display TEMPLATE E gray) as [[display [dx dy]] | msg] eqn:Hfind;
    [ | left; eauto ].
  destruct (lap_var E display) as [v | msg] eqn:Hvar;
    [ | left; exists msg; right; eauto 6 ].
  destruct (comprehension_cases (ocr_tess E) (crops_of display)) as [Hp | [msg Hp]];
    [ | left; exists msg; right; exists display, (dx, dy); eauto 8 ].
  destruct (comprehension_cases (ocr_easy E) (crops_of display)) as [Hs | [msg Hs]];
    [ | left; exists msg; right; exists display, (dx, dy); eauto 9 ].
  right.
  destruct (all_Ok_three _ _ _ _ Hp) as (p0 & p1 & p2 & Hp0 & Hp1 & Hp2).
  destruct (all_Ok_three _ _ _ _ Hs) as (s0 & s1 & s2 & Hs0 & Hs1 & Hs2).
  exists display, dx, dy, v, p0, p1, p2, s0, s1, s2.
  eexists _, _, _. repeat split; try reflexivity; assumption.
Qed.

Lemma assemble_unreadable TEMPLATE E img gray env st msg :
  unreadable TEMPLATE E gray msg ->
  assemble TEMPLATE E img gray env st = (Raise msg, st).
Proof.
  unfold assemble.
  intros [Hfind | (display & [dx dy] & Hfind & Hlater)].
  { rewrite (run_lift_Raise _ _ _ _ Hfind). reflexivity. }
  rewrite (run_lift_Ok _ _ _ _ Hfind). cbn beta iota.
  destruct Hlater as [Hvar | (v & Hvar & Hlater)].
  { rewrite (run_lift_Raise _ _ _ _ Hvar). reflexivity. }
  rewrite (run_lift_Ok _ _ _ _ Hvar).
  destruct Hlater as [Hprimary | [Hprimary Hsecond]].
  { rewrite (run_lift_Raise _ _ _ _ (comprehension_first_failure _ _ _ Hprimary)).
    reflexivity. }
  destruct (comprehension_all_Ok _ _ Hprimary) as [ts Hts].
  rewrite (run_lift_Ok _ _ _ _ Hts).
  rewrite (run_lift_Raise _ _ _ _ (comprehension_first_failure _ _ _ Hsecond)).
  reflexivity.
Qed.

(** Once the display is read, what remains of [assemble] is the two
    uploads, the three numbers and the dictionary. *)
Lemma assemble_read_off TEMPLATE E i gray env st display dx dy v p0 p1 p2 s0 s1 s2 :
  read_off TEMPLATE E gray display dx dy v p0 p1 p2 s0 s1 s2 ->
  assemble TEMPLATE E (Some i) gray env st =
  (img_url ← upload_blob E (orig_path env) (annotated TEMPLATE E i dx dy);
   heat ← lift (applyColorMap E display);
   heat_url ← upload_blob E (heat_path env) heat;
   n0 ← lift (parse_field p0);
   n1 ← lift (parse_field p1);
   n2 ← lift (parse_field p2);
   mret
     {| timestamp := utcnow_isoformat env;
        glare_detected := less v VAR_THRESHOLD;
        variance := round2 E v;
        image_url := img_url;
        heatmap_url := heat_url;
        ocr_raw := {[ "sys" := p0; "dia" := p1; "pul" := p2 ]};
        consensus := list_eqb [p0; p1; p2] [s0; s1; s2];
        ocr_alternates :=
          {[ "sys" := [p0; s0]; "dia" := [p1; s1]; "pul" := [p2; s2] ]};
        systolic := n0;
        diastolic := n1;
        pulse := n2 |}) st.
Proof.
  intros (sys & dia & pul & Hfind & Hvar & Hcrops & (Hp0 & Hp1 & Hp2) & (Hs0 & Hs1 & Hs2)).
  unfold assemble.
  rewrite (run_lift_Ok _ _ _ _ Hfind). cbn beta iota.
  rewrite (run_lift_Ok _ _ _ _ Hvar).
  rewrite Hcrops. cbn [comprehension].
  rewrite Hp0, Hp1, Hp2, Hs0, Hs1, Hs2.
  cbn [mbind result_bind].
  rewrite (run_lift_Ok _ [p0; p1; p2]) by reflexivity.
  rewrite (run_lift_Ok _ [s0; s1; s2]) by reflexivity.
  rewrite (run_lift_Ok _ (p0, p1, p2)) by reflexivity. cbn beta iota.
  rewrite (run_lift_Ok _ i) by reflexivity.
  reflexivity.
Qed.

Lemma assemble_photo_fails TEMPLATE E i gray env st display dx dy v p0 p1 p2 s0 s1 s2 msg :
  read_off TEMPLATE E gray display dx dy v p0 p1 p2 s0 s1 s2 ->
  upload_fails E (orig_path env) (annotated TEMPLATE E i dx dy) msg ->
  assemble TEMPLATE E (Some i) gray env st = (Raise msg, st).
Proof.
  intros Hread Hfail. rewrite (assemble_read_off _ _ _ _ _ _ _ _ _ _ _ _ _ _ _ _ Hread).
  apply run_bind_Raise. apply upload_blob_fails. exact Hfail.
Qed.

Lemma assemble_heat_fails TEMPLATE E i gray env st display dx dy v p0 p1 p2 s0 s1 s2
    buf msg :
  read_off TEMPLATE E gray display dx dy v p0 p1 p2 s0 s1 s2 ->
  upload_completes E (orig_path env) (annotated TEMPLATE E i dx dy) buf ->
  (applyColorMap E display = Raise msg \/
   exists heat,
     applyColorMap E display = Ok heat /\ upload_fails E (heat_path env) heat msg) ->
  assemble TEMPLATE E (Some i) gray env st
  = (Raise msg, uploaded (orig_path env) buf st).
Proof.
  intros Hread Hup Hfail.
  rewrite (assemble_read_off _ _ _ _ _ _ _ _ _ _ _ _ _ _ _ _ Hread).
  rewrite (run_bind_Ok _ _ _ _ _ (upload_blob_completes _ _ _ _ st Hup)).
  destruct Hfail as [Hheat | (heat & Hheat & Hfail)].
  - apply run_lift_Raise. exact Hheat.
  - rewrite (run_lift_Ok _ _ _ _ Hheat).
    apply run_bind_Raise. apply upload_blob_fails. exact Hfail.
Qed.

Lemma assemble_numbers_fail TEMPLATE E i gray env st display dx dy v p0 p1 p2 s0 s1 s2
    buf buf' msg :
  read_off TEMPLATE E gray display dx dy v p0 p1 p2 s0 s1 s2 ->
  images_stored TEMPLATE E env i display dx dy buf buf' ->
  first_failure parse_field [p0; p1; p2] msg ->
  assemble TEMPLATE E (Some i) gray env st
  = (Raise msg, uploaded (heat_path env) buf' (uploaded (orig_path env) buf st)).
Proof.
  intros Hread (Hup & heat & Hheat & Hup') Hfail.
  rewrite (assemble_read_off _ _ _ _ _ _ _ _ _ _ _ _ _ _ _ _ Hread).
  rewrite (run_bind_Ok _ _ _ _ _ (upload_blob_completes _ _ _ _ st Hup)).
  rewrite (run_lift_Ok _ _ _ _ Hheat).
  rewrite (run_bind_Ok _ _ _ _ _ (upload_blob_completes _ _ _ _ _ Hup')).
  apply first_failure_three in Hfail
    as [H0 | [(n0 & H0 & H1) | (n0 & n1 & H0 & H1 & H2)]].
  - apply run_lift_Raise. exact H0.
  - rewrite (run_lift_Ok _ _ _ _ H0). apply run_lift_Raise. exact H1.
  - rewrite (run_lift_Ok _ _ _ _ H0), (run_lift_Ok _ _ _ _ H1).
    apply run_lift_Raise. exact H2.
Qed.

Lemma assemble_builds TEMPLATE E i gray env st display dx dy v p0 p1 p2 s0 s1 s2
    buf buf' n0 n1 n2 :
  read_off TEMPLATE E gray display dx dy v p0 p1 p2 s0 s1 s2 ->
  images_stored TEMPLATE E env i display dx dy buf buf' ->
  parsed p0 p1 p2 n0 n1 n2 ->
  assemble TEMPLATE E (Some i) gray env st
  = (Ok (record_of E env v p0 p1 p2 s0 s1 s2 n0 n1 n2),
     uploaded (heat_path env) buf' (uploaded (orig_path env) buf st)).
Proof.
  intros Hread (Hup & heat & Hheat & Hup') (H0 & H1 & H2).
  rewrite (assemble_read_off _ _ _ _ _ _ _ _ _ _ _ _ _ _ _ _ Hread).
  rewrite (run_bind_Ok _ _ _ _ _ (upload_blob_completes _ _ _ _ st Hup)).
  rewrite (run_lift_Ok _ _ _ _ Hheat).
  rewrite (run_bind_Ok _ _ _ _ _ (upload_blob_completes _ _ _ _ _ Hup')).
  rewrite (run_lift_Ok _ _ _ _ H0), (run_lift_Ok _ _ _ _ H1), (run_lift_Ok _ _ _ _ H2).
  reflexivity.
Qed.

(** After the display is read: the steps that can still fail, in order. *)
Lemma stage_cases TEMPLATE E env i display dx dy (p0 p1 p2 : text) :
  (exists msg, upload_fails E (orig_path env) (annotated TEMPLATE E i dx dy) msg) \/
  (exists buf,
      upload_completes E (orig_path env) (annotated TEMPLATE E i dx dy) buf /\
      ((exists msg,
           applyColorMap E display = Raise msg \/
           exists heat,
             applyColorMap E display = Ok heat /\
             upload_fails E (heat_path env) heat msg) \/
       (exists buf',
           images_stored TEMPLATE E env i display dx dy buf buf' /\
           ((exists msg, first_failure parse_field [p0; p1; p2] msg) \/
            (exists n0 n1 n2, parsed p0 p1 p2 n0 n1 n2))))).
Proof.
  destruct (upload_cases E (orig_path env) (annotated TEMPLATE E i dx dy))
    as [Hfail | [buf Hup]]; [ left; exact Hfail | right ].
  exists buf. split; [ exact Hup | ].
  destruct (applyColorMap E display) as [heat | msg] eqn:Hheat; [ | left; eauto ].
  destruct (upload_cases E (heat_path env) heat) as [[msg Hfail] | [buf' Hup']];
    [ left; exists msg; right; eauto | right ].
  exists buf'. split; [ split; [ exact Hup | eauto ] | ].
  destruct (comprehension_cases parse_field [p0; p1; p2]) as [Hall | Hfail];
    [ right | left; exact Hfail ].
  destruct (all_Ok_three _ _ _ _ Hall) as (n0 & n1 & n2 & Hn).
  exists n0, n1, n2. exact Hn.
Qed.

(** The outcomes of [assemble] on a decoded photo. *)
Lemma assemble_outcome TEMPLATE E i gray env st :
  (exists msg,
      unreadable TEMPLATE E gray msg /\
      assemble TEMPLATE E (Some i) gray env st = (Raise msg, st)) \/
  (exists display dx dy v p0 p1 p2 s0 s1 s2,
      read_off TEMPLATE E gray display dx dy v p0 p1 p2 s0 s1 s2 /\
      ((exists msg,
           upload_fails E (orig_path env) (annotated TEMPLATE E i dx dy) msg /\
           assemble TEMPLATE E (Some i) gray env st = (Raise msg, st)) \/
       (exists buf msg,
           upload_completes E (orig_path env) (annotated TEMPLATE E i dx dy) buf /\
           (applyColorMap E display = Raise msg \/
            exists heat,
              applyColorMap E display = Ok heat /\
              upload_fails E (heat_path env) heat msg) /\
           assemble TEMPLATE E (Some i) gray env st
           = (Raise msg, uploaded (orig_path env) buf st)) \/
       (exists buf buf' msg,
           images_stored TEMPLATE E env i display dx dy buf buf' /\
           first_failure parse_field [p0; p1; p2] msg /\
           assemble TEMPLATE E (Some i) gray env st
           = (Raise msg,
              uploaded (heat_path env) buf' (uploaded (orig_path env) buf st))) \/
       (exists buf buf' n0 n1 n2,
           images_stored TEMPLATE E env i display dx dy buf buf' /\
           parsed p0 p1 p2 n0 n1 n2 /\
           assemble TEMPLATE E (Some i) gray env st
           = (Ok (record_of E env v p0 p1 p2 s0 s1 s2 n0 n1 n2),
              uploaded (heat_path env) buf' (uploaded (orig_path env) buf st))))).
Proof.
  destruct (read_cases TEMPLATE E gray)
    as [[msg Hun] | (display & dx & dy & v & p0 & p1 & p2 & s0 & s1 & s2 & Hread)].
  { left. exists msg. split; [ exact Hun | apply assemble_unreadable; exact Hun ]. }
  right. exists display, dx, dy, v, p0, p1, p2, s0, s1, s2. split; [ exact Hread | ].
  destruct (stage_cases TEMPLATE E env i display dx dy p0 p1 p2)
    as [[msg Hfail] | (buf & Hup & [[msg Hfail] | (buf' & Hstored & [[msg Hfail] | (n0 & n1 & n2 & Hn)])])].
  - left. exists msg. split; [ exact Hfail | ].
    eapply assemble_photo_fails; eassumption.
  - right. left. exists buf, msg. split; [ exact Hup | ]. split; [ exact Hfail | ].
    eapply assemble_heat_fails; eassumption.
  - right. right. left. exists buf, buf', msg.
    split; [ exact Hstored | ]. split; [ exact Hfail | ].
    eapply assemble_numbers_fail; eassumption.
  - right. right. right. exists buf, buf', n0, n1, n2.
    split; [ exact Hstored | ]. split; [ exact Hn | ].
    eapply assemble_builds; eassumption.
Qed.

(** ** The whole invocation *)

Lemma process_bp_try_decoded TEMPLATE E request env st b64 img gray :
  payload request = Ok b64 -> decode E b64 = Ok (img, gray) ->
  process_bp_try TEMPLATE E request env st = analyse TEMPLATE E img gray env st.
Proof.
  intros Hpayload Hdecode. unfold process_bp_try.
  rewrite (run_lift_Ok _ _ _ _ Hpayload), (run_lift_Ok _ _ _ _ Hdecode).
  reflexivity.
Qed.

Lemma process_bp_decoded TEMPLATE E request env st b64 img gray :
  payload request = Ok b64 -> decode E b64 = Ok (img, gray) ->
  process_bp TEMPLATE E request env st =
  match analyse TEMPLATE E img gray env st with
  | (Ok doc, st') => (Reading doc, st')
  | (Raise e, st') => (ErrorResponse e, st')
  end.
Proof.
  intros Hpayload Hdecode. unfold process_bp.
  rewrite (process_bp_try_decoded _ _ _ _ _ _ _ _ Hpayload Hdecode). reflexivity.
Qed.

Lemma process_bp_try_payload_Raise TEMPLATE E request env st msg :
  payload request = Raise msg ->
  process_bp_try TEMPLATE E request env st = (Raise msg, st).
Proof. intros H. unfold process_bp_try. rewrite H. reflexivity. Qed.

Lemma process_bp_try_decode_Raise TEMPLATE E request env st b64 msg :
  payload request = Ok b64 -> decode E b64 = Raise msg ->
  process_bp_try TEMPLATE E request env st = (Raise msg, st).
Proof.
  intros Hp Hd. unfold process_bp_try.
  rewrite (run_lift_Ok _ _ _ _ Hp), Hd. reflexivity.
Qed.

Lemma process_bp_Raise TEMPLATE E request env st msg st' :
  process_bp_try TEMPLATE E request env st = (Raise msg, st') ->
  process_bp TEMPLATE E request env st = (ErrorResponse msg, st').
Proof. intros H. unfold process_bp. rewrite H. reflexivity. Qed.

Lemma process_bp_payload_Raise TEMPLATE E request env st msg :
  payload request = Raise msg ->
  process_bp TEMPLATE E request env st = (ErrorResponse msg, st).
Proof. intros H. apply process_bp_Raise, process_bp_try_payload_Raise, H. Qed.

Lemma process_bp_decode_Raise TEMPLATE E request env st b64 msg :
  payload request = Ok b64 -> decode E b64 = Raise msg ->
  process_bp TEMPLATE E request env st = (ErrorResponse msg, st).
Proof.
  intros Hp Hd. eapply process_bp_Raise, process_bp_try_decode_Raise; eassumption.
Qed.

Lemma analyse_assemble_Raise TEMPLATE E img gray env st msg st' :
  assemble TEMPLATE E img gray env st = (Raise msg, st') ->
  analyse TEMPLATE E img gray env st = (Raise msg, st').
Proof. intros H. unfold analyse. apply run_bind_Raise. exact H. Qed.

(** Once the record is built, it is handed to the write; a write that
    completes is followed by the encoding of the record. *)
Lemma analyse_assemble_Ok TEMPLATE E img gray env st d st1 :
  assemble TEMPLATE E img gray env st = (Ok d, st1) ->
  analyse TEMPLATE E img gray env st =
  match set_fault E (uuid4_hex env) d with
  | Some msg => (Raise msg, st1)
  | None => (json_dumps d, written (uuid4_hex env) d st1)
  end.
Proof.
  intros H. unfold analyse. rewrite (run_bind_Ok _ _ _ _ _ H).
  unfold mbind, M_bind, document_set.
  destruct (set_fault E (uuid4_hex env) d); reflexivity.
Qed.

Lemma early_failure_decoded TEMPLATE E request b64 img gray msg :
  payload request = Ok b64 -> decode E b64 = Ok (img, gray) ->
  unreadable TEMPLATE E gray msg ->
  early_failure TEMPLATE E request msg.
Proof.
  intros Hp Hd [Hfind | (display & loc & Hfind & [Hvar | (v & Hvar & [Hprimary | [Hprimary Hsecond]])])].
  - eapply not_located; eassumption.
  - eapply not_scored; eassumption.
  - eapply primary_failed; eassumption.
  - eapply secondary_failed; eassumption.
Qed.

Lemma early_failure_unreadable TEMPLATE E request msg :
  early_failure TEMPLATE E request msg ->
  payload request = Raise msg \/
  exists b64,
    payload request = Ok b64 /\
    (decode E b64 = Raise msg \/
     exists img gray,
       decode E b64 = Ok (img, gray) /\ unreadable TEMPLATE E gray msg).
Proof.
  unfold unreadable.
  intros [Hp | b64 Hp Hd | b64 img gray Hp Hd Hfind
          | b64 img gray display loc Hp Hd Hfind Hvar
          | b64 img gray display loc v Hp Hd Hfind Hvar Hprimary
          | b64 img gray display loc v Hp Hd Hfind Hvar Hprimary Hsecond];
    [ left; exact Hp | right; exists b64; split; [ exact Hp | ] .. ].
  - left. exact Hd.
  - right. exists img, gray. split; [ exact Hd | ]. left. exact Hfind.
  - right. exists img, gray. split; [ exact Hd | ]. right.
    exists display, loc. split; [ exact Hfind | ]. left. exact Hvar.
  - right. exists img, gray. split; [ exact Hd | ]. right.
    exists display, loc. split; [ exact Hfind | ]. right.
    exists v. split; [ exact Hvar | ]. left. exact Hprimary.
  - right. exists img, gray. split; [ exact Hd | ]. right.
    exists display, loc. split; [ exact Hfind | ]. right.
    exists v. split; [ exact Hvar | ]. right. split; assumption.
Qed.

(** A failure before the first upload ends the run with its message and
    the store as it was. *)
Lemma early_failure_run TEMPLATE E request env st msg :
  early_failure TEMPLATE E request msg ->
  process_bp_try TEMPLATE E request env st = (Raise msg, st).
Proof.
  intros [Hp | (b64 & Hp & [Hd | (img & gray & Hd & Hun)])]%early_failure_unreadable.
  - apply process_bp_try_payload_Raise. exact Hp.
  - eapply process_bp_try_decode_Raise; eassumption.
  - rewrite (process_bp_try_decoded _ _ _ _ _ _ _ _ Hp Hd).
    apply analyse_assemble_Raise, assemble_unreadable. exact Hun.
Qed.

Lemma failure_sound TEMPLATE E request env st msg st' :
  failure TEMPLATE E request env st msg st' ->
  process_bp_try TEMPLATE E request env st = (Raise msg, st').
Proof.
  intros [Hearly
         | i display dx dy v p0 p1 p2 s0 s1 s2 (b64 & gray & Hp & Hd & Hread) Hfail
         | i display dx dy v p0 p1 p2 s0 s1 s2 buf (b64 & gray & Hp & Hd & Hread) Hup Hfail
         | i display dx dy v p0 p1 p2 s0 s1 s2 buf buf' (b64 & gray & Hp & Hd & Hread)
             Hstored Hfail
         | i display dx dy v p0 p1 p2 s0 s1 s2 buf buf' n0 n1 n2
             (b64 & gray & Hp & Hd & Hread) Hstored Hn Hset
         | i display dx dy v p0 p1 p2 s0 s1 s2 buf buf' n0 n1 n2
             (b64 & gray & Hp & Hd & Hread) Hstored Hn Hset Hdumps].
  - apply early_failure_run. exact Hearly.
  - rewrite (process_bp_try_decoded _ _ _ _ _ _ _ _ Hp Hd).
    apply analyse_assemble_Raise. eapply assemble_photo_fails; eassumption.
  - rewrite (process_bp_try_decoded _ _ _ _ _ _ _ _ Hp Hd).
    apply analyse_assemble_Raise. eapply assemble_heat_fails; eassumption.
  - rewrite (process_bp_try_decoded _ _ _ _ _ _ _ _ Hp Hd).
    apply analyse_assemble_Raise. eapply assemble_numbers_fail; eassumption.
  - rewrite (process_bp_try_decoded _ _ _ _ _ _ _ _ Hp Hd).
    rewrite (analyse_assemble_Ok _ _ _ _ _ _ _ _
               (assemble_builds _ _ _ _ _ st _ _ _ _ _ _ _ _ _ _ _ _ _ _ _ Hread Hstored Hn)).
    rewrite Hset. reflexivity.
  - rewrite (process_bp_try_decoded _ _ _ _ _ _ _ _ Hp Hd).
    rewrite (analyse_assemble_Ok _ _ _ _ _ _ _ _
               (assemble_builds _ _ _ _ _ st _ _ _ _ _ _ _ _ _ _ _ _ _ _ _ Hread Hstored Hn)).
    rewrite Hset, Hdumps. reflexivity.
Qed.

(** Every run ends with an exception, in one of the ways of [failure]. *)
Lemma failure_complete TEMPLATE E request env st :
  exists msg st',
    process_bp_try TEMPLATE E request env st = (Raise msg, st') /\
    failure TEMPLATE E request env st msg st'.
Proof.
  assert (Hsound := failure_sound TEMPLATE E request env st).
  enough (exists msg st', failure TEMPLATE E request env st msg st') as (msg & st' & Hf)
    by (exists msg, st'; split; [ apply Hsound | ]; exact Hf).
  clear Hsound.
  destruct (payload request) as [b64 | msg] eqn:Hp;
    [ | exists msg, st; apply fails_before_uploads, bad_request; exact Hp ].
  destruct (decode E b64) as [[img gray] | msg] eqn:Hd;
    [ | exists msg, st; eapply fails_before_uploads, bad_image; eassumption ].
  destruct (decode_Some _ _ _ _ Hd) as [i ->].
  destruct (read_cases TEMPLATE E gray)
    as [[msg Hun] | (display & dx & dy & v & p0 & p1 & p2 & s0 & s1 & s2 & Hread)].
  { exists msg, st. eapply fails_before_uploads, early_failure_decoded; eassumption. }
  assert (Hrec : recognised TEMPLATE E request i display dx dy v p0 p1 p2 s0 s1 s2)
    by (exists b64, gray; auto).
  destruct (stage_cases TEMPLATE E env i display dx dy p0 p1 p2)
    as [[msg Hfail] | (buf & Hup & [[msg Hfail] | (buf' & Hstored & [[msg Hfail] | (n0 & n1 & n2 & Hn)])])].
  - eexists _, _. eapply fails_at_photo; eassumption.
  - eexists _, _. eapply fails_at_heat_map; eassumption.
  - eexists _, _. eapply fails_at_numbers; eassumption.
  - destruct (set_fault E (uuid4_hex env) (record_of E env v p0 p1 p2 s0 s1 s2 n0 n1 n2))
      as [msg |] eqn:Hset.
    + eexists _, _. eapply fails_at_write; eassumption.
    + eexists _, _. eapply fails_at_answer; try eassumption. apply json_dumps_doc.
Qed.

(** What a built record says about the run that built it. *)
Lemma builds_inv TEMPLATE E request env st d st1 :
  builds TEMPLATE E request env st d st1 ->
  exists i display dx dy v p0 p1 p2 s0 s1 s2 buf buf' n0 n1 n2,
    recognised TEMPLATE E request i display dx dy v p0 p1 p2 s0 s1 s2 /\
    images_stored TEMPLATE E env i display dx dy buf buf' /\
    parsed p0 p1 p2 n0 n1 n2 /\
    d = record_of E env v p0 p1 p2 s0 s1 s2 n0 n1 n2 /\
    st1 = uploaded (heat_path env) buf' (uploaded (orig_path env) buf st).
Proof.
  intros (b64 & img & gray & Hp & Hd & Hrun).
  destruct (decode_Some _ _ _ _ Hd) as [i ->].
  destruct (assemble_outcome TEMPLATE E i gray env st)
    as [(msg & _ & Hout)
       | (display & dx & dy & v & p0 & p1 & p2 & s0 & s1 & s2 & Hread
          & [(msg & _ & Hout)
            | [(buf & msg & _ & _ & Hout)
              | [(buf & buf' & msg & _ & _ & Hout)
                | (buf & buf' & n0 & n1 & n2 & Hstored & Hn & Hout)]]])];
    rewrite Hout in Hrun; try discriminate Hrun.
  injection Hrun as <- <-.
  exists i, display, dx, dy, v, p0, p1, p2, s0, s1, s2, buf, buf', n0, n1, n2.
  split; [ exists b64, gray; auto | ]. auto.
Qed.

(** A built record is handed to the write; a completed write stores it,
    and the answer is then the error that its encoding raises. *)
Lemma builds_run TEMPLATE E request env st d st1 :
  builds TEMPLATE E request env st d st1 ->
  process_bp TEMPLATE E request env st =
  match set_fault E (uuid4_hex env) d with
  | Some msg => (ErrorResponse msg, st1)
  | None =>
      (ErrorResponse "Object of type bool_ is not JSON serializable",
       written (uuid4_hex env) d st1)
  end.
Proof.
  intros (b64 & img & gray & Hp & Hd & Hrun).
  rewrite (process_bp_decoded _ _ _ _ _ _ _ _ Hp Hd).
  rewrite (analyse_assemble_Ok _ _ _ _ _ _ _ _ Hrun).
  destruct (set_fault E (uuid4_hex env) d); reflexivity.
Qed.

Lemma builds_written TEMPLATE E request env st d st1 :
  builds TEMPLATE E request env st d st1 ->
  set_fault E (uuid4_hex env) d = None ->
  readings (process_bp TEMPLATE E request env st).2 !! uuid4_hex env = Some d.
Proof.
  intros Hb Hset. rewrite (builds_run _ _ _ _ _ _ _ Hb), Hset.
  cbn. apply lookup_insert_eq.
Qed.

(** ** Invocations that fail *)

Lemma first_failure_of_Raise {A B : Type} (f : A -> result B) (l : list A) (a : A) :
  In a l -> is_Raise (f a) -> exists msg, first_failure f l msg.
Proof.
  intros Hin [msg Hmsg].
  destruct (comprehension_cases f l) as [Hall | Hfail]; [ | exact Hfail ].
  rewrite Forall_forall in Hall. rewrite <- list_elem_of_In in Hin.
  destruct (Hall a Hin) as [t Ht]. congruence.
Qed.

(** A recognition call that raises makes the display unreadable. *)
Lemma unreadable_recognition TEMPLATE E gray display loc v crop :
  find_display TEMPLATE E gray = Ok (display, loc) ->
  lap_var E display = Ok v ->
  In crop (crops_of display) ->
  is_Raise (ocr_tess E crop) \/ is_Raise (ocr_easy E crop) ->
  exists msg, unreadable TEMPLATE E gray msg.
Proof.
  intros Hfind Hvar Hcrop Hraise. unfold unreadable.
  destruct (comprehension_cases (ocr_tess E) (crops_of display)) as [Hall | [msg Hfail]].
  - destruct Hraise as [Hp | Hs].
    + destruct (first_failure_of_Raise _ _ _ Hcrop Hp) as [msg Hfail].
      exists msg. right. exists display, loc. eauto 7.
    + destruct (first_failure_of_Raise _ _ _ Hcrop Hs) as [msg Hfail].
      exists msg. right. exists display, loc. eauto 8.
  - exists msg. right. exists display, loc. eauto 7.
Qed.

Lemma process_bp_unreadable TEMPLATE E request env st b64 img gray msg :
  payload request = Ok b64 -> decode E b64 = Ok (img, gray) ->
  unreadable TEMPLATE E gray msg ->
  process_bp TEMPLATE E request env st = (ErrorResponse msg, st).
Proof.
  intros Hp Hd Hun. apply process_bp_Raise.
  rewrite (process_bp_try_decoded _ _ _ _ _ _ _ _ Hp Hd).
  apply analyse_assemble_Raise, assemble_unreadable. exact Hun.
Qed.

(** C1, as the code has it: when a recognition call raises, for either
    recogniser and any of the three bands, nothing is substituted for its
    text; the exception ends the invocation, which answers with the error
    object and status 500, returns no record, and leaves the store as it
    was, recognition coming before every upload and the record write. *)
Theorem C1_recognition_failure_aborts TEMPLATE E request env st b64 img gray
    display loc v crop :
  payload request = Ok b64 -> decode E b64 = Ok (img, gray) ->
  find_display TEMPLATE E gray = Ok (display, loc) ->
  lap_var E display = Ok v ->
  In crop (crops_of display) ->
  is_Raise (ocr_tess E crop) \/ is_Raise (ocr_easy E crop) ->
  exists msg,
    process_bp TEMPLATE E request env st = (ErrorResponse msg, st) /\
    status_code (process_bp TEMPLATE E request env st).1 = 500.
Proof.
  intros Hpayload Hdecode Hfind Hvar Hcrop Hraise.
  destruct (unreadable_recognition _ _ _ _ _ _ _ Hfind Hvar Hcrop Hraise) as [msg Hun].
  exists msg.
  rewrite (process_bp_unreadable _ _ _ _ _ _ _ _ _ Hpayload Hdecode Hun).
  split; reflexivity.
Qed.


(** C2, as the code has it: an invocation ends in the error response with
    message [msg] and store [st'] exactly when one of its steps raises
    [msg] and [st'] is the store that the steps completed before it have
    left.  Nothing is undone: the store is as it was when the failing step
    comes before the completion of the first upload; it holds the
    annotated photo in addition when the colour map or the second upload
    fails; both images when parsing a number or writing the record fails;
    both images and the record when the record is written and its
    encoding for the answer fails.  The status is 500. *)
Theorem C2_nothing_undone_on_error TEMPLATE E request env st msg st' :
  (process_bp TEMPLATE E request env st = (ErrorResponse msg, st') <->
   failure TEMPLATE E request env st msg st') /\
  (process_bp TEMPLATE E request env st = (ErrorResponse msg, st') ->
   status_code (process_bp TEMPLATE E request env st).1 = 500).
Proof.
  split; [ split | ].
  - intros Hrun.
    destruct (failure_complete TEMPLATE E request env st) as (msg0 & st0 & Htry & Hf).
    rewrite (process_bp_Raise _ _ _ _ _ _ _ Htry) in Hrun.
    injection Hrun as <- <-. exact Hf.
  - intros Hf. apply process_bp_Raise, failure_sound. exact Hf.
  - intros ->. reflexivity.
Qed.

Lemma C1_recognition_failure_aborts_witness :
  exists msg,
    process_bp Sample.template Sample.second_fails Sample.request Sample.env
      Sample.empty_store = (ErrorResponse msg, Sample.empty_store) /\
    status_code (process_bp Sample.template Sample.second_fails Sample.request
                   Sample.env Sample.empty_store).1 = 500.
Proof.
  eapply (C1_recognition_failure_aborts Sample.template Sample.second_fails
            Sample.request Sample.env Sample.empty_store
            "QUJD" (Some Sample.photo) Sample.gray).
  - vm_compute. reflexivity.
  - reflexivity.
  - reflexivity.
  - reflexivity.
  - right. left. reflexivity.
  - right. exists "recogniser failed". vm_compute. reflexivity.
Defined.

(** C1 fails as stated: the second recogniser raises on the middle band
    and on no other call, and the invocation answers with the error object
    and no record. *)
Lemma C1_counterexample :
  exists display loc sys dia pul,
    find_display Sample.template Sample.second_fails Sample.gray = Ok (display, loc) /\
    crops_of display = [sys; dia; pul] /\
    ocr_tess Sample.second_fails sys = Ok (ascii_text "120") /\
    ocr_tess Sample.second_fails dia = Ok (ascii_text "80") /\
    ocr_tess Sample.second_fails pul = Ok (ascii_text "72") /\
    ocr_easy Sample.second_fails sys = Ok (ascii_text "120") /\
    ocr_easy Sample.second_fails dia = Raise "recogniser failed" /\
    ocr_easy Sample.second_fails pul = Ok (ascii_text "72") /\
    process_bp Sample.template Sample.second_fails Sample.request Sample.env
      Sample.empty_store
    = (ErrorResponse "recogniser failed", Sample.empty_store).
Proof.
  eexists _, _, _, _, _.
  split; [ reflexivity | ]. split; [ reflexivity | ].
  repeat split; vm_compute; reflexivity.
Qed.


Lemma C2_nothing_undone_on_error_witness :
  failure Sample.template Sample.heat_upload_fails Sample.request Sample.env
    Sample.empty_store "upload failed" Sample.photo_only /\
  status_code (process_bp Sample.template Sample.heat_upload_fails Sample.request
                 Sample.env Sample.empty_store).1 = 500.
Proof.
  split.
  - apply (proj1 (proj1 (C2_nothing_undone_on_error Sample.template
                           Sample.heat_upload_fails Sample.request Sample.env
                           Sample.empty_store "upload failed" Sample.photo_only))).
    vm_compute. reflexivity.
  - apply (proj2 (C2_nothing_undone_on_error Sample.template
                    Sample.heat_upload_fails Sample.request Sample.env
                    Sample.empty_store "upload failed" Sample.photo_only)).
    vm_compute. reflexivity.
Defined.

(** C2 fails as stated: the upload of the heat map raises, the caller gets
    the error object, and the annotated photo uploaded just before stays in
    the bucket, which did not hold it at the start.  And when both uploads
    and the record write complete, the encoding of the answer raises: the
    caller gets the error object while both images and the record are
    stored. *)
Lemma C2_counterexample :
  (process_bp Sample.template Sample.heat_upload_fails Sample.request Sample.env
     Sample.empty_store
   = (ErrorResponse "upload failed", Sample.photo_only) /\
   bucket Sample.photo_only !! "bp/u1_orig.jpg"
   = Some {| content := []; content_type := "image/jpeg" |} /\
   bucket Sample.empty_store !! "bp/u1_orig.jpg" = None) /\
  (exists msg,
      process_bp Sample.template Sample.calm Sample.request Sample.env
        Sample.empty_store
      = (ErrorResponse msg, Sample.stored) /\
      json_dumps Sample.reading = Raise msg /\
      readings Sample.stored !! "u1" = Some Sample.reading /\
      readings Sample.empty_store !! "u1" = None).
Proof.
  split.
  { split; [ vm_compute; reflexivity | ]. split; vm_compute; reflexivity. }
  eexists. split; [ vm_compute; reflexivity | ].
  split; [ reflexivity | ]. split; vm_compute; reflexivity.
Qed.



(** ** The record *)

Lemma eqb_eq (a b : text) : str.eqb a b = true <-> a = b.
Proof.
  revert b. induction a as [| x a IH]; intros [| y b]; cbn;
    try (split; [ discriminate | congruence ]); [ tauto | ].
  rewrite andb_true_iff, N.eqb_eq, IH. split; [ intros [-> ->] | intros [= -> ->] ]; auto.
Qed.

Lemma list_eqb_three (p0 p1 p2 s0 s1 s2 : text) :
  list_eqb [p0; p1; p2] [s0; s1; s2] = true <-> p0 = s0 /\ p1 = s1 /\ p2 = s2.
Proof.
  cbn. rewrite !andb_true_iff, !eqb_eq. tauto.
Qed.

Lemma text_eq_dec (a b : text) : {a = b} + {a <> b}.
Proof. destruct (str.eqb a b) eqn:H; [ left | right ]; rewrite <- eqb_eq; congruence. Qed.

Lemma crops_of_three (display : image_gray) :
  exists sys dia pul,
    crops_of display = [sys; dia; pul] /\
    (shape0 sys = shape0 display / 3 /\ shape0 dia = shape0 display / 3 /\
     shape0 pul = shape0 display / 3) /\
    (shape1 sys = shape1 display /\ shape1 dia = shape1 display /\
     shape1 pul = shape1 display) /\
    (forall r c,
        px sys r c = px display r c /\
        px dia r c = px display (shape0 display / 3 + r) c /\
        px pul r c = px display (2 * (shape0 display / 3) + r) c).
Proof.
  eexists _, _, _. split; [ reflexivity | ].
  cbn [shape0 shape1 px slice_rows].
  pose proof (Nat.div_mod_eq (shape0 display) 3) as Hdiv.
  pose proof (Nat.mod_upper_bound (shape0 display) 3) as Hmod.
  set (h := shape0 display / 3) in *.
  repeat split; try lia; f_equal; lia.
Qed.

(** What a built record was computed from: the located display, its
    variance, its three bands and the two texts read off each band. *)
Lemma record_sources TEMPLATE E request env st d st1 :
  builds TEMPLATE E request env st d st1 ->
  exists b64 img gray display loc v sys dia pul p0 p1 p2 s0 s1 s2,
    (payload request = Ok b64 /\ decode E b64 = Ok (img, gray) /\
     find_display TEMPLATE E gray = Ok (display, loc) /\
     lap_var E display = Ok v /\ crops_of display = [sys; dia; pul]) /\
    (ocr_tess E sys = Ok p0 /\ ocr_tess E dia = Ok p1 /\ ocr_tess E pul = Ok p2) /\
    (ocr_easy E sys = Ok s0 /\ ocr_easy E dia = Ok s1 /\ ocr_easy E pul = Ok s2) /\
    glare_detected d = less v VAR_THRESHOLD /\
    ocr_raw d = {[ "sys" := p0; "dia" := p1; "pul" := p2 ]} /\
    ocr_alternates d = {[ "sys" := [p0; s0]; "dia" := [p1; s1]; "pul" := [p2; s2] ]} /\
    consensus d = list_eqb [p0; p1; p2] [s0; s1; s2] /\
    parsed p0 p1 p2 (systolic d) (diastolic d) (pulse d).
Proof.
  intros Hb.
  apply builds_inv in Hb
    as (i & display & dx & dy & v & p0 & p1 & p2 & s0 & s1 & s2 & buf & buf'
        & n0 & n1 & n2 & (b64 & gray & Hp & Hd & Hread) & _ & Hn & -> & _).
  destruct Hread as (sys & dia & pul & Hfind & Hvar & Hcrops & Htess & Heasy).
  exists b64, (Some i), gray, display, (dx, dy), v, sys, dia, pul, p0, p1, p2, s0, s1, s2.
  cbn [record_of glare_detected ocr_raw ocr_alternates consensus systolic diastolic pulse].
  repeat split; try tauto; apply Hn.
Qed.


(** C4: in the record that an invocation builds, the flag [consensus] is
    true exactly when, for each of the three fields, the primary and the
    secondary text that the recognisers gave are the same text; two empty
    texts agree.  The record is the one handed to the record write. *)
Theorem C4_consensus TEMPLATE E request env st d st1 :
  builds TEMPLATE E request env st d st1 ->
  exists i display dx dy v p0 p1 p2 s0 s1 s2,
    recognised TEMPLATE E request i display dx dy v p0 p1 p2 s0 s1 s2 /\
    (ocr_alternates d !! "sys" = Some [p0; s0] /\
     ocr_alternates d !! "dia" = Some [p1; s1] /\
     ocr_alternates d !! "pul" = Some [p2; s2]) /\
    (consensus d = true <-> p0 = s0 /\ p1 = s1 /\ p2 = s2) /\
    (consensus d = false <-> p0 <> s0 \/ p1 <> s1 \/ p2 <> s2) /\
    (set_fault E (uuid4_hex env) d = None ->
     readings (process_bp TEMPLATE E request env st).2 !! uuid4_hex env = Some d).
Proof.
  intros Hb. pose proof (builds_written _ _ _ _ _ _ _ Hb) as Hwritten.
  apply builds_inv in Hb
    as (i & display & dx & dy & v & p0 & p1 & p2 & s0 & s1 & s2 & buf & buf'
        & n0 & n1 & n2 & Hrec & _ & _ & -> & _).
  exists i, display, dx, dy, v, p0, p1, p2, s0, s1, s2.
  split; [ exact Hrec | ].
  cbn [record_of ocr_alternates consensus].
  split; [ split; [ | split ]; reflexivity | ].
  pose proof (list_eqb_three p0 p1 p2 s0 s1 s2) as Hiff.
  split; [ exact Hiff | ]. split; [ | exact Hwritten ].
  destruct (list_eqb [p0; p1; p2] [s0; s1; s2]).
  - split; [ discriminate | ]. intros Hne. exfalso.
    destruct (proj1 Hiff eq_refl) as (H0 & H1 & H2). tauto.
  - split; [ intros _ | reflexivity ].
    destruct (text_eq_dec p0 s0) as [H0 | H0]; [ | auto ].
    destruct (text_eq_dec p1 s1) as [H1 | H1]; [ | auto ].
    destruct (text_eq_dec p2 s2) as [H2 | H2]; [ | auto ].
    exfalso. assert (Hf : false = true) by (apply Hiff; auto). discriminate Hf.
Qed.

(** The calm world reads 120, 80 and 72 off the sample photo, with both
    recognisers in agreement, stores two images and builds the record. *)
Lemma sample_builds :
  builds Sample.template Sample.calm Sample.request Sample.env Sample.empty_store
    Sample.reading Sample.both_images.
Proof.
  exists "QUJD", (Some Sample.photo), Sample.gray.
  split; [ vm_compute; reflexivity | ]. split; [ reflexivity | ].
  vm_compute. reflexivity.
Qed.

Lemma C4_consensus_witness :
  exists i display dx dy v p0 p1 p2 s0 s1 s2,
    recognised Sample.template Sample.calm Sample.request i display dx dy v
      p0 p1 p2 s0 s1 s2 /\
    (ocr_alternates Sample.reading !! "sys" = Some [p0; s0] /\
     ocr_alternates Sample.reading !! "dia" = Some [p1; s1] /\
     ocr_alternates Sample.reading !! "pul" = Some [p2; s2]) /\
    (consensus Sample.reading = true <-> p0 = s0 /\ p1 = s1 /\ p2 = s2) /\
    (consensus Sample.reading = false <-> p0 <> s0 \/ p1 <> s1 \/ p2 <> s2) /\
    (set_fault Sample.calm (uuid4_hex Sample.env) Sample.reading = None ->
     readings (process_bp Sample.template Sample.calm Sample.request Sample.env
                 Sample.empty_store).2 !! uuid4_hex Sample.env
     = Some Sample.reading).
Proof.
  exact (C4_consensus Sample.template Sample.calm Sample.request Sample.env
           Sample.empty_store Sample.reading Sample.both_images sample_builds).
Defined.

Lemma VAR_THRESHOLD_is_ten :
  (finite_value false 5629499534213120 (-49) == 10)%Q.
Proof. vm_compute. reflexivity. Qed.

Lemma truth_less (a b : float) : truth (less a b) = SFltb a b.
Proof. unfold less. destruct (SFltb a b); reflexivity. Qed.

(** C5: [glare_detected] is true exactly when the variance of the located
    display is strictly below ten; a variance equal to the threshold, whose
    value is ten, gives false.  The flag of the record that an invocation
    builds is this comparison for the variance of the display it located. *)
Theorem C5_glare_threshold TEMPLATE E :
  (forall v : float,
      valid_binary prec64 emax64 v = true ->
      (truth (less v VAR_THRESHOLD) = true <-> below_ten v)) /\
  (VAR_THRESHOLD = S754_finite false 5629499534213120 (-49) /\
   (finite_value false 5629499534213120 (-49) == 10)%Q /\
   less VAR_THRESHOLD VAR_THRESHOLD = False_) /\
  (forall request env st d st1,
      builds TEMPLATE E request env st d st1 ->
      exists b64 img gray display loc v,
        payload request = Ok b64 /\ decode E b64 = Ok (img, gray) /\
        find_display TEMPLATE E gray = Ok (display, loc) /\
        lap_var E display = Ok v /\
        glare_detected d = less v VAR_THRESHOLD /\
        (set_fault E (uuid4_hex env) d = None ->
         readings (process_bp TEMPLATE E request env st).2 !! uuid4_hex env = Some d)).
Proof.
  split; [ intros v Hv; rewrite truth_less; exact (ltb_VAR_THRESHOLD v Hv) | ].
  split; [ split; [ reflexivity | split; [ exact VAR_THRESHOLD_is_ten | reflexivity ] ] | ].
  intros request env st d st1 Hb.
  pose proof (builds_written _ _ _ _ _ _ _ Hb) as Hwritten.
  apply record_sources in Hb
    as (b64 & img & gray & display & loc & v & sys & dia & pul & p0 & p1 & p2
        & s0 & s1 & s2 & (Hpayload & Hdecode & Hfind & Hvar & _) & _ & _ & Hglare & _).
  exists b64, img, gray, display, loc, v. auto 7.
Qed.

Lemma C5_glare_threshold_witness :
  (truth (less Sample.one VAR_THRESHOLD) = true <-> below_ten Sample.one) /\
  exists b64 img gray display loc v,
    payload Sample.request = Ok b64 /\ decode Sample.calm b64 = Ok (img, gray) /\
    find_display Sample.template Sample.calm gray = Ok (display, loc) /\
    lap_var Sample.calm display = Ok v /\
    glare_detected Sample.reading = less v VAR_THRESHOLD /\
    (set_fault Sample.calm (uuid4_hex Sample.env) Sample.reading = None ->
     readings (process_bp Sample.template Sample.calm Sample.request Sample.env
                 Sample.empty_store).2 !! uuid4_hex Sample.env
     = Some Sample.reading).
Proof.
  split.
  - exact (proj1 (C5_glare_threshold Sample.template Sample.calm) Sample.one eq_refl).
  - exact (proj2 (proj2 (C5_glare_threshold Sample.template Sample.calm))
             Sample.request Sample.env Sample.empty_store
             Sample.reading Sample.both_images sample_builds).
Defined.

(** C6: the located display of height H is cut into exactly three bands,
    each of height floor(H/3) and of the display's full width, taken from
    the top down; the last H mod 3 rows are in no band.  In the record that
    an invocation builds, the text and the number of the first band are
    those of systolic, of the second diastolic, of the third pulse. *)
Theorem C6_three_bands TEMPLATE E :
  (forall display : image_gray,
      exists sys dia pul,
        crops_of display = [sys; dia; pul] /\
        (shape0 sys = shape0 display / 3 /\ shape0 dia = shape0 display / 3 /\
         shape0 pul = shape0 display / 3) /\
        (shape1 sys = shape1 display /\ shape1 dia = shape1 display /\
         shape1 pul = shape1 display) /\
        (forall r c,
            px sys r c = px display r c /\
            px dia r c = px display (shape0 display / 3 + r) c /\
            px pul r c = px display (2 * (shape0 display / 3) + r) c) /\
        3 * (shape0 display / 3) + shape0 display mod 3 = shape0 display) /\
  (forall request env st d st1,
      builds TEMPLATE E request env st d st1 ->
      exists b64 img gray display loc sys dia pul p0 p1 p2,
        payload request = Ok b64 /\ decode E b64 = Ok (img, gray) /\
        find_display TEMPLATE E gray = Ok (display, loc) /\
        crops_of display = [sys; dia; pul] /\
        ocr_tess E sys = Ok p0 /\ ocr_tess E dia = Ok p1 /\ ocr_tess E pul = Ok p2 /\
        ocr_raw d !! "sys" = Some p0 /\ parse_field p0 = Ok (systolic d) /\
        ocr_raw d !! "dia" = Some p1 /\ parse_field p1 = Ok (diastolic d) /\
        ocr_raw d !! "pul" = Some p2 /\ parse_field p2 = Ok (pulse d) /\
        (set_fault E (uuid4_hex env) d = None ->
         readings (process_bp TEMPLATE E request env st).2 !! uuid4_hex env = Some d)).
Proof.
  split.
  - intros display.
    destruct (crops_of_three display) as (sys & dia & pul & Hcrops & Hrows & Hcols & Hpx).
    exists sys, dia, pul. repeat split; try tauto; try apply Hpx.
    pose proof (Nat.div_mod_eq (shape0 display) 3). lia.
  - intros request env st d st1 Hb.
    pose proof (builds_written _ _ _ _ _ _ _ Hb) as Hwritten.
    apply record_sources in Hb
      as (b64 & img & gray & display & loc & v & sys & dia & pul & p0 & p1 & p2
          & s0 & s1 & s2 & (Hpayload & Hdecode & Hfind & _ & Hcrops)
          & (Hp0 & Hp1 & Hp2) & _ & _ & Hraw & _ & _ & (Hn0 & Hn1 & Hn2)).
    exists b64, img, gray, display, loc, sys, dia, pul, p0, p1, p2.
    rewrite Hraw.
    repeat (split; [ first [ assumption | reflexivity ] | ]). exact Hwritten.
Qed.

Lemma C6_three_bands_witness :
  (exists sys dia pul,
      crops_of Sample.template = [sys; dia; pul] /\
      (shape0 sys = shape0 Sample.template / 3 /\
       shape0 dia = shape0 Sample.template / 3 /\
       shape0 pul = shape0 Sample.template / 3) /\
      (shape1 sys = shape1 Sample.template /\ shape1 dia = shape1 Sample.template /\
       shape1 pul = shape1 Sample.template) /\
      (forall r c,
          px sys r c = px Sample.template r c /\
          px dia r c = px Sample.template (shape0 Sample.template / 3 + r) c /\
          px pul r c = px Sample.template (2 * (shape0 Sample.template / 3) + r) c) /\
      3 * (shape0 Sample.template / 3) + shape0 Sample.template mod 3
      = shape0 Sample.template) /\
  exists b64 img gray display loc sys dia pul p0 p1 p2,
    payload Sample.request = Ok b64 /\ decode Sample.calm b64 = Ok (img, gray) /\
    find_display Sample.template Sample.calm gray = Ok (display, loc) /\
    crops_of display = [sys; dia; pul] /\
    ocr_tess Sample.calm sys = Ok p0 /\ ocr_tess Sample.calm dia = Ok p1 /\
    ocr_tess Sample.calm pul = Ok p2 /\
    ocr_raw Sample.reading !! "sys" = Some p0 /\
    parse_field p0 = Ok (systolic Sample.reading) /\
    ocr_raw Sample.reading !! "dia" = Some p1 /\
    parse_field p1 = Ok (diastolic Sample.reading) /\
    ocr_raw Sample.reading !! "pul" = Some p2 /\
    parse_field p2 = Ok (pulse Sample.reading) /\
    (set_fault Sample.calm (uuid4_hex Sample.env) Sample.reading = None ->
     readings (process_bp Sample.template Sample.calm Sample.request Sample.env
                 Sample.empty_store).2 !! uuid4_hex Sample.env
     = Some Sample.reading).
Proof.
  split.
  - exact (proj1 (C6_three_bands Sample.template Sample.calm) Sample.template).
  - exact (proj2 (C6_three_bands Sample.template Sample.calm)
             Sample.request Sample.env Sample.empty_store
             Sample.reading Sample.both_images sample_builds).
Defined.

(** ** The payload of a request *)

Lemma payload_of_string (o : gmap string json) (s : string) :
  o !! "image_base64" = Some (JString s) ->
  payload {| get_json := Ok (JObject o) |} = getitem_last (str.split "," s).
Proof.
  intros Hfield. unfold payload. cbn. rewrite Hfield. reflexivity.
Qed.

(** The run on a payload, the decoding written out. *)
Lemma process_bp_try_payload TEMPLATE E request env st t :
  payload request = Ok t ->
  process_bp_try TEMPLATE E request env st =
  (raw ← lift (b64decode E t);
   img ← lift (imdecode E raw);
   gray ← lift (cvtColor E img);
   analyse TEMPLATE E img gray env) st.
Proof.
  intros Hp. unfold process_bp_try. rewrite (run_lift_Ok _ _ _ _ Hp).
  unfold decode.
  destruct (b64decode E t) as [raw | msg]; [ | reflexivity ].
  rewrite (run_lift_Ok _ raw) by reflexivity. cbn [mbind result_bind].
  destruct (imdecode E raw) as [img | msg]; [ | reflexivity ].
  rewrite (run_lift_Ok _ img) by reflexivity. cbn [mbind result_bind].
  destruct (cvtColor E img) as [gray | msg]; reflexivity.
Qed.

(** C9: the text handed to the base64 decoder is what follows the last
    comma of the field [image_base64], and the whole field when it holds no
    comma: the decoder is called on that text, its failure is the
    invocation's error, and the invocation goes as it would on the bare
    payload. *)
Theorem C9_payload_after_last_comma TEMPLATE E env st (o : gmap string json) (s : string) :
  o !! "image_base64" = Some (JString s) ->
  exists t,
    payload {| get_json := Ok (JObject o) |} = Ok t /\
    str.contains "," t = false /\
    (str.contains "," s = false -> t = s) /\
    (str.contains "," s = true -> exists p, s = p ++ "," ++ t) /\
    process_bp_try TEMPLATE E {| get_json := Ok (JObject o) |} env st =
    (raw ← lift (b64decode E t);
     img ← lift (imdecode E raw);
     gray ← lift (cvtColor E img);
     analyse TEMPLATE E img gray env) st /\
    (forall msg,
        b64decode E t = Raise msg ->
        process_bp TEMPLATE E {| get_json := Ok (JObject o) |} env st
        = (ErrorResponse msg, st)) /\
    process_bp TEMPLATE E {| get_json := Ok (JObject o) |} env st =
    process_bp TEMPLATE E
      {| get_json := Ok (JObject (<["image_base64" := JString t]> o)) |} env st /\
    process_bp_try TEMPLATE E {| get_json := Ok (JObject o) |} env st =
    (lift (decode E t) ≫= fun '(img, gray) => analyse TEMPLATE E img gray env) st.
Proof.
  intros Hfield.
  destruct (split_last "," s) as (t & Hlast & Hfree & Hnone & Hsome).
  assert (Hpayload : payload {| get_json := Ok (JObject o) |} = Ok t).
  { rewrite (payload_of_string o s Hfield). exact Hlast. }
  assert (Hbare :
            payload {| get_json := Ok (JObject (<["image_base64" := JString t]> o)) |}
            = Ok t).
  { rewrite (payload_of_string _ t) by apply lookup_insert_eq.
    destruct (split_last "," t) as (t' & -> & _ & Ht' & _).
    rewrite (Ht' Hfree). reflexivity. }
  exists t. split; [ exact Hpayload | ]. split; [ exact Hfree | ].
  split; [ exact Hnone | ]. split; [ exact Hsome | ].
  split; [ exact (process_bp_try_payload _ _ _ _ _ _ Hpayload) | ].
  split.
  { intros msg Hraw. apply (process_bp_decode_Raise _ _ _ _ _ t); [ exact Hpayload | ].
    unfold decode. rewrite Hraw. reflexivity. }
  unfold process_bp, process_bp_try. rewrite Hpayload, Hbare.
  split; reflexivity.
Qed.

Lemma C9_payload_after_last_comma_witness :
  exists t,
    payload Sample.request = Ok t /\
    str.contains "," t = false /\
    (str.contains "," "data:image/jpeg;base64,QUJD" = false ->
     t = "data:image/jpeg;base64,QUJD") /\
    (str.contains "," "data:image/jpeg;base64,QUJD" = true ->
     exists p, "data:image/jpeg;base64,QUJD" = p ++ "," ++ t) /\
    process_bp_try Sample.template Sample.calm Sample.request Sample.env
      Sample.empty_store =
    (raw ← lift (b64decode Sample.calm t);
     img ← lift (imdecode Sample.calm raw);
     gray ← lift (cvtColor Sample.calm img);
     analyse Sample.template Sample.calm img gray Sample.env) Sample.empty_store /\
    (forall msg,
        b64decode Sample.calm t = Raise msg ->
        process_bp Sample.template Sample.calm Sample.request Sample.env
          Sample.empty_store
        = (ErrorResponse msg, Sample.empty_store)) /\
    process_bp Sample.template Sample.calm Sample.request Sample.env Sample.empty_store =
    process_bp Sample.template Sample.calm
      {| get_json :=
           Ok (JObject (<["image_base64" := JString t]>
                          {[ "image_base64" := JString "data:image/jpeg;base64,QUJD" ]})) |}
      Sample.env Sample.empty_store /\
    process_bp_try Sample.template Sample.calm Sample.request Sample.env Sample.empty_store =
    (lift (decode Sample.calm t)
     ≫= fun '(img, gray) => analyse Sample.template Sample.calm img gray Sample.env)
      Sample.empty_store.
Proof.
  apply (C9_payload_after_last_comma Sample.template Sample.calm Sample.env
           Sample.empty_store
           {[ "image_base64" := JString "data:image/jpeg;base64,QUJD" ]}
           "data:image/jpeg;base64,QUJD").
  vm_compute. reflexivity.
Defined.

(** C10: in the record that an invocation builds, for each field,
    [ocr_raw] holds the primary recogniser's stripped text of the field's
    band, and [ocr_alternates] holds that same text followed by the
    secondary recogniser's stripped text of the same band, which is its
    fragments put together in order and stripped. *)
Theorem C10_raw_heads_alternates TEMPLATE E request env st d st1 :
  builds TEMPLATE E request env st d st1 ->
  exists b64 img gray display loc sys dia pul,
    payload request = Ok b64 /\ decode E b64 = Ok (img, gray) /\
    find_display TEMPLATE E gray = Ok (display, loc) /\
    crops_of display = [sys; dia; pul] /\
    (forall f band,
        In (f, band) [("sys", sys); ("dia", dia); ("pul", pul)] ->
        exists raw fragments,
          image_to_string E band = Ok raw /\
          readtext E band = Ok fragments /\
          ocr_raw d !! f = Some (str.strip raw) /\
          ocr_alternates d !! f
          = Some [str.strip raw; str.strip (concat fragments)]) /\
    (set_fault E (uuid4_hex env) d = None ->
     readings (process_bp TEMPLATE E request env st).2 !! uuid4_hex env = Some d).
Proof.
  intros Hb. pose proof (builds_written _ _ _ _ _ _ _ Hb) as Hwritten.
  apply record_sources in Hb
    as (b64 & img & gray & display & loc & v & sys & dia & pul & p0 & p1 & p2
        & s0 & s1 & s2 & (Hpayload & Hdecode & Hfind & _ & Hcrops)
        & (Hp0 & Hp1 & Hp2) & (Hs0 & Hs1 & Hs2) & _ & -> & -> & _).
  exists b64, img, gray, display, loc, sys, dia, pul.
  repeat (split; [ assumption | ]). split; [ | exact Hwritten ].
  unfold ocr_tess in Hp0, Hp1, Hp2. unfold ocr_easy in Hs0, Hs1, Hs2.
  apply fmap_Ok_inv in Hp0 as (r0 & Hr0 & ->), Hp1 as (r1 & Hr1 & ->),
      Hp2 as (r2 & Hr2 & ->).
  apply fmap_Ok_inv in Hs0 as (f0 & Hf0 & ->), Hs1 as (f1 & Hf1 & ->),
      Hs2 as (f2 & Hf2 & ->).
  intros f band [[= <- <-] | [[= <- <-] | [[= <- <-] | []]]].
  - exists r0, f0. repeat split; assumption || reflexivity.
  - exists r1, f1. repeat split; assumption || reflexivity.
  - exists r2, f2. repeat split; assumption || reflexivity.
Qed.

Lemma C10_raw_heads_alternates_witness :
  exists b64 img gray display loc sys dia pul,
    payload Sample.request = Ok b64 /\ decode Sample.calm b64 = Ok (img, gray) /\
    find_display Sample.template Sample.calm gray = Ok (display, loc) /\
    crops_of display = [sys; dia; pul] /\
    (forall f band,
        In (f, band) [("sys", sys); ("dia", dia); ("pul", pul)] ->
        exists raw fragments,
          image_to_string Sample.calm band = Ok raw /\
          readtext Sample.calm band = Ok fragments /\
          ocr_raw Sample.reading !! f = Some (str.strip raw) /\
          ocr_alternates Sample.reading !! f
          = Some [str.strip raw; str.strip (concat fragments)]) /\
    (set_fault Sample.calm (uuid4_hex Sample.env) Sample.reading = None ->
     readings (process_bp Sample.template Sample.calm Sample.request Sample.env
                 Sample.empty_store).2 !! uuid4_hex Sample.env
     = Some Sample.reading).
Proof.
  exact (C10_raw_heads_alternates Sample.template Sample.calm Sample.request
           Sample.env Sample.empty_store Sample.reading Sample.both_images
           sample_builds).
Defined.
(** * Further properties *)

(** ** Stored objects *)

(** X1: [upload_blob] writes at most the object at its path.  The record
    collection and every other object are as before; when it raises the
    store is unchanged; when it returns, it returns the public address of
    the path, and the object at the path is the encoded image with content
    type image/jpeg. *)
Theorem X1_upload_blob_frame (E : Externals) path img st r st' :
  upload_blob E path img st = (r, st') ->
  readings st' = readings st /\
  (forall other, other <> path -> bucket st' !! other = bucket st !! other) /\
  (is_Raise r -> st' = st) /\
  (forall url, r = Ok url ->
     url = public_url E path /\
     exists buf,
       imencode E img = Ok buf /\
       bucket st' !! path = Some {| content := buf; content_type := "image/jpeg" |}).
Proof.
  intros Hup.
  apply upload_blob_outcome in Hup as [[Hraise ->] | (buf & Hbuf & _ & -> & ->)].
  - split; [ reflexivity | ]. split; [ reflexivity | ]. split; [ reflexivity | ].
    intros url ->. destruct Hraise as [msg [=]].
  - split; [ reflexivity | ]. split.
    { intros other Hne. cbn. apply lookup_insert_ne. congruence. }
    split; [ intros [msg [=]] | ].
    intros url [= <-]. split; [ reflexivity | ].
    exists buf. split; [ exact Hbuf | ]. cbn. apply lookup_insert_eq.
Qed.




(** X12: no invocation answers with a record.  Encoding a record for
    the answer always raises, its flag [glare_detected] being a
    [numpy.bool_], so whatever the request, the engines and the stores do,
    the answer is the error object with status 500. *)
Theorem X12_no_record_is_returned TEMPLATE E request env st :
  (forall d : Doc, is_Raise (json_dumps d)) /\
  exists msg,
    (process_bp TEMPLATE E request env st).1 = ErrorResponse msg /\
    status_code (process_bp TEMPLATE E request env st).1 = 500.
Proof.
  split; [ intros d; eexists; apply json_dumps_doc | ].
  destruct (failure_complete TEMPLATE E request env st) as (msg & st' & Htry & _).
  exists msg. rewrite (process_bp_Raise _ _ _ _ _ _ _ Htry). split; reflexivity.
Qed.

(** ** Failures before the first upload *)

(** X3: when the first step to raise comes before the first upload, the
    answer carries that exception's own message and the store is
    unchanged.  Among the recognition calls the primary recogniser's
    failure on the earliest band is the one reported. *)
Theorem X3_first_exception_reported TEMPLATE E request env st msg :
  early_failure TEMPLATE E request msg ->
  process_bp TEMPLATE E request env st = (ErrorResponse msg, st).
Proof.
  intros Hearly. apply process_bp_Raise, early_failure_run. exact Hearly.
Qed.
(** X4: a request whose body is no JSON, is JSON but no object, has no
    key [image_base64], or holds something other than a string there, is
    answered with the error object and stores nothing; for the missing key
    the message is the key in single quotes. *)
Theorem X4_malformed_body TEMPLATE E env st :
  (forall msg,
      process_bp TEMPLATE E {| get_json := Raise msg |} env st
      = (ErrorResponse msg, st)) /\
  (forall body,
      ~ is_object body ->
      exists msg,
        process_bp TEMPLATE E {| get_json := Ok body |} env st
        = (ErrorResponse msg, st)) /\
  (forall o : gmap string json,
      o !! "image_base64" = None ->
      process_bp TEMPLATE E {| get_json := Ok (JObject o) |} env st
      = (ErrorResponse "'image_base64'", st)) /\
  (forall (o : gmap string json) v,
      o !! "image_base64" = Some v -> ~ is_string v ->
      exists msg,
        process_bp TEMPLATE E {| get_json := Ok (JObject o) |} env st
        = (ErrorResponse msg, st)).
Proof.
  split; [ | split; [ | split ] ].
  - intros msg. apply process_bp_payload_Raise. reflexivity.
  - intros body Hbody.
    assert (Hraise : exists msg, payload {| get_json := Ok body |} = Raise msg).
    { unfold payload. cbn.
      destruct body; try (eexists; reflexivity).
      exfalso. apply Hbody. eexists. reflexivity. }
    destruct Hraise as [msg Hmsg]. exists msg.
    apply process_bp_payload_Raise. exact Hmsg.
  - intros o Hnone. apply process_bp_payload_Raise.
    unfold payload. cbn. rewrite Hnone. reflexivity.
  - intros o v Hsome Hv.
    assert (Hraise : exists msg, payload {| get_json := Ok (JObject o) |} = Raise msg).
    { unfold payload. cbn. rewrite Hsome. cbn.
      destruct v; try (eexists; reflexivity).
      exfalso. apply Hv. eexists. reflexivity. }
    destruct Hraise as [msg Hmsg]. exists msg.
    apply process_bp_payload_Raise. exact Hmsg.
Qed.

(** X5: when the decoded bytes are no image, so that [cv2.imdecode]
    gives [None], the conversion to grey raises; the invocation answers
    with the error object and stores nothing. *)
Theorem X5_not_an_image TEMPLATE E request env st b64 raw :
  payload request = Ok b64 -> b64decode E b64 = Ok raw ->
  imdecode E raw = Ok None ->
  exists msg,
    decode E b64 = Raise msg /\
    process_bp TEMPLATE E request env st = (ErrorResponse msg, st).
Proof.
  intros Hp Hraw Himg.
  assert (Hd : exists msg, decode E b64 = Raise msg).
  { unfold decode. rewrite Hraw. cbn. rewrite Himg. cbn. eexists. reflexivity. }
  destruct Hd as [msg Hd]. exists msg. split; [ exact Hd | ].
  exact (process_bp_decode_Raise _ _ _ _ _ _ _ Hp Hd).
Qed.

(** ** Failures after the first upload *)


(** ** Recognised text *)

(** X6: a text returned by either recogniser neither starts nor ends with
    whitespace, Unicode's whitespace above ASCII included, and it is the
    engine's raw text (for the second engine the fragments put together in
    order, with nothing between them) without its leading and trailing
    whitespace. *)
Theorem X6_recognised_text_is_stripped (E : Externals) (img : image_gray) :
  (forall t,
      ocr_tess E img = Ok t ->
      trimmed t /\
      exists raw pre post,
        image_to_string E img = Ok raw /\ blank pre /\ blank post /\
        raw = (pre ++ t ++ post)%list) /\
  (forall t,
      ocr_easy E img = Ok t ->
      trimmed t /\
      exists fragments pre post,
        readtext E img = Ok fragments /\ blank pre /\ blank post /\
        concat fragments = (pre ++ t ++ post)%list).
Proof.
  split; intros t Ht.
  - unfold ocr_tess in Ht. apply fmap_Ok_inv in Ht as (raw & Hraw & ->).
    split; [ apply strip_trimmed | ].
    destruct (strip_decompose raw) as (pre & post & Hpre & Hpost & Hdec).
    exists raw, pre, post. auto.
  - unfold ocr_easy in Ht. apply fmap_Ok_inv in Ht as (fragments & Hfr & ->).
    split; [ apply strip_trimmed | ].
    destruct (strip_decompose (str.join fragments)) as (pre & post & Hpre & Hpost & Hdec).
    exists fragments, pre, post. auto.
Qed.

(** X7: whitespace before and after the digits that the primary engine
    reads does not change the result: the recognised text is the digits
    alone, and, there being at most 4300 of them, their value is parsed;
    when there are no digits between the whitespace, the text is empty and
    the value absent. *)
Theorem X7_padding_around_digits (E : Externals) (img : image_gray)
    (pre digits post : text) :
  image_to_string E img = Ok (pre ++ digits ++ post)%list ->
  blank pre -> blank post ->
  Forall decimal_digit digits ->
  length digits <= 4300 ->
  ocr_tess E img = Ok digits /\
  (digits <> [] -> parse_field digits = Ok (Some (denoted digits))) /\
  (digits = [] -> parse_field digits = Ok None).
Proof.
  intros Hraw Hpre Hpost Hall Hlen.
  split; [ | split ].
  - unfold ocr_tess. rewrite Hraw. cbn [fmap result_fmap].
    rewrite strip_surrounded by auto using numeral_trimmed. reflexivity.
  - intros Hne. apply parse_field_numeral; assumption.
  - intros ->. reflexivity.
Qed.

Lemma isdigit_forallb (s : text) :
  str.isdigit s = true -> forallb str.isdigit_char s = true.
Proof. destruct s; [ discriminate | ]. intros H. exact H. Qed.

(** X8: a parsed value is never negative and is below ten to the power
    of the text's length, which is at most 4300; a zero put before the
    text leaves the value unchanged, unless the text has 4300 characters
    already, when [int] raises on the longer text. *)
Theorem X8_parsed_value_range (s : text) (n : Z) :
  parse_field s = Ok (Some n) ->
  (0 <= n < 10 ^ Z.of_nat (length s))%Z /\
  length s <= 4300 /\
  (length s < 4300 -> parse_field (48%N :: s) = Ok (Some n)) /\
  (length s = 4300 -> is_Raise (parse_field (48%N :: s))).
Proof.
  intros Hparse.
  apply parse_field_Some in Hparse as (Hdigit & ds & Hprefix & Hne & Hlen & ->).
  pose proof (decimal_prefix_length _ _ _ Hprefix) as Hs.
  cbn [length] in Hs. rewrite Nat.add_0_r in Hs.
  pose proof (fold_digits_bounds ds 0 (decimal_prefix_values _ _ _ Hprefix)) as Hb.
  unfold str.max_str_digits in Hlen.
  assert (Hzero : exists msg,
             parse_field (48%N :: s) =
             if 4300 <? S (length ds)
             then Raise msg
             else Ok (Some (fold_left (fun a d => (10 * a + Z.of_N d)%Z) ds 0%Z))).
  { eexists. unfold parse_field.
    replace (str.isdigit (48%N :: s)) with true
      by (symmetry; exact (isdigit_forallb s Hdigit)).
    unfold str.int. cbn [str.decimal_prefix].
    change (str.decimal_value 48) with (Some 0%N). rewrite Hprefix.
    cbn [length]. unfold str.max_str_digits.
    destruct (4300 <? S (length ds)); reflexivity. }
  destruct Hzero as [msg Hzero].
  rewrite Hs. split; [ lia | ]. split; [ exact Hlen | ].
  rewrite Hzero. split; intros H4300.
  - destruct (Nat.ltb_spec 4300 (S (length ds))); [ lia | reflexivity ].
  - destruct (Nat.ltb_spec 4300 (S (length ds))); [ eexists; reflexivity | lia ].
Qed.
(** ** The located placement *)

(** X9: on an image of exactly the template's size the locator returns the
    whole image, at offset (0, 0). *)
Theorem X9_template_sized_image (TEMPLATE : image_gray) (E : Externals) (gray : image_gray) :
  shape0 gray = ROI_H TEMPLATE -> shape1 gray = ROI_W TEMPLATE ->
  exists display,
    find_display TEMPLATE E gray = Ok (display, (0, 0)) /\
    shape0 display = shape0 gray /\ shape1 display = shape1 gray /\
    forall r c, px display r c = px gray r c.
Proof.
  unfold ROI_H, ROI_W. intros Hrows Hcols.
  unfold find_display. rewrite matchTemplate_fits by lia.
  cbn [mbind result_bind]. unfold cv2.minMaxLoc, cv2.scan.
  cbn [shape0 shape1 cv2.score_map].
  rewrite Hrows, Hcols, !Nat.sub_diag. cbn [Nat.add seq list_prod map app fold_left fst snd].
  destruct (SFltb _ _); cbn [fst snd];
    (eexists; split; [ reflexivity | ]);
    unfold ROI_H, ROI_W; cbn [slice shape0 shape1 px];
    rewrite <- Hrows, <- Hcols;
    repeat split; try lia; reflexivity.
Qed.

(** ** The order of scores *)

Lemma SFltb_irrefl (a : float) : SFltb a a = false.
Proof.
  unfold SFltb, SFcompare.
  destruct a as [s | s | | s m e]; try destruct s; try reflexivity;
    rewrite Z.compare_refl, Pos.compare_cont_spec, Pos.compare_refl; reflexivity.
Qed.

Lemma finite_order_trans (m1 m2 m3 : positive) (e1 e2 e3 : Z) :
  match (e1 ?= e2)%Z with Lt => Lt | Gt => Gt | Eq => Pos.compare_cont Eq m1 m2 end = Lt ->
  match (e2 ?= e3)%Z with Lt => Lt | Gt => Gt | Eq => Pos.compare_cont Eq m2 m3 end = Lt ->
  match (e1 ?= e3)%Z with Lt => Lt | Gt => Gt | Eq => Pos.compare_cont Eq m1 m3 end = Lt.
Proof.
  rewrite !Pos.compare_cont_spec. unfold Pos.switch_Eq.
  destruct (Z.compare_spec e1 e2), (Z.compare_spec e2 e3), (Z.compare_spec e1 e3);
    subst; try lia; try discriminate; try reflexivity.
  destruct (Pos.compare_spec m1 m2), (Pos.compare_spec m2 m3), (Pos.compare_spec m1 m3);
    subst; try lia; try discriminate; reflexivity.
Qed.

Lemma SFltb_trans (a b c : float) :
  SFltb a b = true -> SFltb b c = true -> SFltb a c = true.
Proof.
  unfold SFltb, SFcompare.
  destruct a as [sa | sa | | sa ma ea], b as [sb | sb | | sb mb eb],
      c as [sc | sc | | sc mc ec];
    try destruct sa; try destruct sb; try destruct sc;
    try discriminate; try reflexivity.
  - intros Hab Hbc.
    destruct (match (ea ?= eb)%Z with Lt => Gt | Gt => Lt | Eq => CompOpp (Pos.compare_cont Eq ma mb) end) eqn:H1;
      try discriminate Hab.
    destruct (match (eb ?= ec)%Z with Lt => Gt | Gt => Lt | Eq => CompOpp (Pos.compare_cont Eq mb mc) end) eqn:H2;
      try discriminate Hbc.
    assert (H1' : match (eb ?= ea)%Z with Lt => Lt | Gt => Gt | Eq => Pos.compare_cont Eq mb ma end = Lt).
    { rewrite Z.compare_antisym, Pos.compare_cont_spec, Pos.compare_antisym.
      rewrite Pos.compare_cont_spec in H1. unfold Pos.switch_Eq in *.
      destruct (ea ?= eb)%Z, (ma ?= mb)%positive; cbn in *; congruence. }
    assert (H2' : match (ec ?= eb)%Z with Lt => Lt | Gt => Gt | Eq => Pos.compare_cont Eq mc mb end = Lt).
    { rewrite Z.compare_antisym, Pos.compare_cont_spec, Pos.compare_antisym.
      rewrite Pos.compare_cont_spec in H2. unfold Pos.switch_Eq in *.
      destruct (eb ?= ec)%Z, (mb ?= mc)%positive; cbn in *; congruence. }
    pose proof (finite_order_trans _ _ _ _ _ _ H2' H1') as H3.
    rewrite Z.compare_antisym, Pos.compare_cont_spec, Pos.compare_antisym in H3.
    rewrite Pos.compare_cont_spec. unfold Pos.switch_Eq in *.
    destruct (ea ?= ec)%Z, (ma ?= mc)%positive; cbn in *; congruence.
  - intros Hab Hbc.
    destruct (match (ea ?= eb)%Z with Lt => Lt | Gt => Gt | Eq => Pos.compare_cont Eq ma mb end) eqn:H1;
      try discriminate Hab.
    destruct (match (eb ?= ec)%Z with Lt => Lt | Gt => Gt | Eq => Pos.compare_cont Eq mb mc end) eqn:H2;
      try discriminate Hbc.
    rewrite (finite_order_trans _ _ _ _ _ _ H1 H2). reflexivity.
Qed.

(** The scan for the maximum ends on a cell that no cell of the matrix
    beats. *)
Lemma scan_max_unbeaten (res : ndarray float) (r c : nat) :
  r < shape0 res -> c < shape1 res ->
  SFltb (px res (cv2.scan (fun a b => SFltb b a) res).1
               (cv2.scan (fun a b => SFltb b a) res).2)
        (px res r c) = false.
Proof.
  intros Hr Hc. unfold cv2.scan.
  assert (Hin : In (r, c) (list_prod (seq 0 (shape0 res)) (seq 0 (shape1 res)))).
  { apply in_prod_iff. split; apply in_seq; lia. }
  revert Hin. generalize (list_prod (seq 0 (shape0 res)) (seq 0 (shape1 res))).
  intros cells.
  set (val := fun cell : nat * nat => px res cell.1 cell.2).
  set (step := fun best cell : nat * nat =>
                 if SFltb (px res best.1 best.2) (px res cell.1 cell.2)
                 then cell else best).
  change (px res r c) with (val (r, c)).
  assert (Hgen : forall (l : list (nat * nat)) (best : nat * nat) (seen : nat * nat -> Prop),
             (forall x, seen x -> SFltb (val best) (val x) = false) ->
             forall x, seen x \/ In x l ->
                       SFltb (val (fold_left step l best)) (val x) = false).
  { induction l as [| cell l IH]; intros best seen Hseen x Hx; cbn [fold_left].
    - destruct Hx as [Hx | []]. apply Hseen. exact Hx.
    - apply (IH (step best cell) (fun y => seen y \/ y = cell)).
      + intros y Hy. unfold step. fold (val best). fold (val cell).
        destruct (SFltb (val best) (val cell)) eqn:Hbeat.
        * destruct Hy as [Hy | ->]; [ | apply SFltb_irrefl ].
          destruct (SFltb (val cell) (val y)) eqn:Hcy; [ | reflexivity ].
          rewrite <- (Hseen y Hy). symmetry.
          apply (SFltb_trans _ _ _ Hbeat Hcy).
        * destruct Hy as [Hy | ->]; [ apply Hseen; exact Hy | exact Hbeat ].
      + destruct Hx as [Hx | [<- | Hx]]; auto. }
  intros Hin.
  apply (Hgen cells (0, 0) (fun x => x = (0, 0))).
  - intros x ->. apply SFltb_irrefl.
  - right. exact Hin.
Qed.

(** X10: on an image at least as large as the template, no placement of
    the template inside the image has a score strictly greater than the
    score of the located region. *)
Theorem X10_located_score_is_maximal (TEMPLATE : image_gray) (E : Externals)
    (gray display : image_gray) (x y : nat) :
  ROI_H TEMPLATE <= shape0 gray -> ROI_W TEMPLATE <= shape1 gray ->
  find_display TEMPLATE E gray = Ok (display, (x, y)) ->
  forall r c,
    r + ROI_H TEMPLATE <= shape0 gray -> c + ROI_W TEMPLATE <= shape1 gray ->
    SFltb (ccoeff_normed E (slice gray y (y + ROI_H TEMPLATE) x (x + ROI_W TEMPLATE)) TEMPLATE)
          (ccoeff_normed E (slice gray r (r + ROI_H TEMPLATE) c (c + ROI_W TEMPLATE)) TEMPLATE)
    = false.
Proof.
  unfold ROI_H, ROI_W. intros Hrows Hcols Hfind r c Hr Hc.
  unfold find_display in Hfind. rewrite matchTemplate_fits in Hfind by assumption.
  cbn [mbind result_bind] in Hfind. unfold cv2.minMaxLoc in Hfind.
  injection Hfind as _ <- <-.
  set (res := cv2.score_map E gray TEMPLATE).
  apply (scan_max_unbeaten res r c); cbn; lia.
Qed.

(** ** Steps that do not read the store *)

Lemma store_blind_lift {A : Type} (r : result A) : store_blind (lift r).
Proof. intros st1 st2. reflexivity. Qed.

Lemma store_blind_ret {A : Type} (a : A) : store_blind (mret a : M A).
Proof. intros st1 st2. reflexivity. Qed.

Lemma store_blind_bind {A B : Type} (m : M A) (f : A -> M B) :
  store_blind m -> (forall a, store_blind (f a)) -> store_blind (m ≫= f).
Proof.
  intros Hm Hf st1 st2. unfold mbind, M_bind.
  specialize (Hm st1 st2).
  destruct (m st1) as [[a1 | e1] s1], (m st2) as [[a2 | e2] s2];
    cbn in Hm; try discriminate Hm.
  - injection Hm as ->. apply Hf.
  - injection Hm as ->. reflexivity.
Qed.

Lemma store_blind_upload_blob (E : Externals) path img :
  store_blind (upload_blob E path img).
Proof.
  unfold upload_blob. apply store_blind_bind; [ apply store_blind_lift | ].
  intros buf. apply store_blind_bind; [ | intros; apply store_blind_ret ].
  intros st1 st2. unfold upload_from_string.
  destruct (upload_fault E path buf); reflexivity.
Qed.

Lemma store_blind_document_set (E : Externals) uid doc :
  store_blind (document_set E uid doc).
Proof.
  intros st1 st2. unfold document_set.
  destruct (set_fault E uid doc); reflexivity.
Qed.

Lemma store_blind_assemble TEMPLATE E img gray env :
  store_blind (assemble TEMPLATE E img gray env).
Proof.
  unfold assemble.
  repeat first
    [ apply store_blind_ret
    | apply store_blind_upload_blob
    | apply store_blind_lift
    | apply store_blind_bind; [ | intros ? ]
    | match goal with |- store_blind (let '(_, _) := ?p in _) => destruct p end ].
Qed.

Lemma store_blind_analyse TEMPLATE E img gray env :
  store_blind (analyse TEMPLATE E img gray env).
Proof.
  unfold analyse.
  apply store_blind_bind; [ apply store_blind_assemble | intros doc ].
  apply store_blind_bind; [ apply store_blind_document_set | intros _ ].
  apply store_blind_lift.
Qed.
(** X11: the answer of an invocation does not depend on what the bucket
    and the record collection hold when it starts. *)
Theorem X11_response_ignores_store TEMPLATE E request env (st1 st2 : Store) :
  (process_bp TEMPLATE E request env st1).1 = (process_bp TEMPLATE E request env st2).1.
Proof.
  assert (Hblind : store_blind (process_bp_try TEMPLATE E request env)).
  { unfold process_bp_try.
    apply store_blind_bind; [ apply store_blind_lift | intros b64 ].
    apply store_blind_bind; [ apply store_blind_lift | intros [img gray] ].
    apply store_blind_analyse. }
  unfold process_bp. specialize (Hblind st1 st2).
  destruct (process_bp_try TEMPLATE E request env st1) as [[d1 | e1] s1],
      (process_bp_try TEMPLATE E request env st2) as [[d2 | e2] s2];
    cbn in *; congruence.
Qed.

(** X14: whatever the sizes of image and template, the region that the
    locator returns is no larger than the template and no larger than the
    image, and each of its pixels is the pixel of the image at the offset
    plus the pixel's position, which lies inside the image. *)
Theorem X14_region_inside_image (TEMPLATE : image_gray) (E : Externals)
    (gray display : image_gray) (x y : nat) :
  find_display TEMPLATE E gray = Ok (display, (x, y)) ->
  (shape0 display <= ROI_H TEMPLATE /\ shape1 display <= ROI_W TEMPLATE) /\
  (shape0 display <= shape0 gray /\ shape1 display <= shape1 gray) /\
  forall r c,
    r < shape0 display -> c < shape1 display ->
    y + r < shape0 gray /\ x + c < shape1 gray /\
    px display r c = px gray (y + r) (x + c).
Proof.
  unfold find_display, ROI_H, ROI_W. intros Hfind.
  destruct (cv2.matchTemplate E gray TEMPLATE) as [res | msg]; [ | discriminate Hfind ].
  cbn [mbind result_bind] in Hfind. unfold cv2.minMaxLoc in Hfind.
  injection Hfind as <- <- <-.
  cbn [slice shape0 shape1 px].
  repeat split; try lia.
Qed.

(** ** Instances on the sample photo *)

Lemma X1_upload_blob_frame_witness :
  readings (uploaded "p" [] Sample.empty_store) = readings Sample.empty_store /\
  (forall other, other <> "p" ->
     bucket (uploaded "p" [] Sample.empty_store) !! other
     = bucket Sample.empty_store !! other) /\
  (is_Raise (Ok (public_url Sample.calm "p")) ->
   uploaded "p" [] Sample.empty_store = Sample.empty_store) /\
  (forall url, Ok (public_url Sample.calm "p") = Ok url ->
     url = public_url Sample.calm "p" /\
     exists buf,
       imencode Sample.calm Sample.photo = Ok buf /\
       bucket (uploaded "p" [] Sample.empty_store) !! "p"
       = Some {| content := buf; content_type := "image/jpeg" |}).
Proof.
  exact (X1_upload_blob_frame Sample.calm "p" Sample.photo Sample.empty_store
           (Ok (public_url Sample.calm "p")) (uploaded "p" [] Sample.empty_store)
           eq_refl).
Defined.



Lemma X6_recognised_text_is_stripped_witness :
  (trimmed (ascii_text "120") /\
   exists raw pre post,
     image_to_string Sample.wide_spaces Sample.template = Ok raw /\
     blank pre /\ blank post /\ raw = (pre ++ ascii_text "120" ++ post)%list) /\
  (trimmed (ascii_text "120") /\
   exists fragments pre post,
     readtext Sample.wide_spaces Sample.template = Ok fragments /\
     blank pre /\ blank post /\
     concat fragments = (pre ++ ascii_text "120" ++ post)%list).
Proof.
  split.
  - apply (proj1 (X6_recognised_text_is_stripped Sample.wide_spaces Sample.template)
             (ascii_text "120")).
    vm_compute. reflexivity.
  - apply (proj2 (X6_recognised_text_is_stripped Sample.wide_spaces Sample.template)
             (ascii_text "120")).
    vm_compute. reflexivity.
Defined.

Lemma X7_padding_around_digits_witness :
  ocr_tess Sample.wide_spaces Sample.template = Ok (ascii_text "120") /\
  (ascii_text "120" <> [] ->
   parse_field (ascii_text "120") = Ok (Some (denoted (ascii_text "120")))) /\
  (ascii_text "120" = [] -> parse_field (ascii_text "120") = Ok None).
Proof.
  apply (X7_padding_around_digits Sample.wide_spaces Sample.template
           [160; 8195]%N (ascii_text "120") [133; 12288]%N).
  - reflexivity.
  - repeat constructor; unfold whitespace; cbn; tauto.
  - repeat constructor; unfold whitespace; cbn; tauto.
  - repeat constructor; unfold decimal_digit; cbn; lia.
  - cbn. lia.
Defined.

Lemma X8_parsed_value_range_witness :
  (0 <= 120 < 10 ^ Z.of_nat (length (ascii_text "120")))%Z /\
  length (ascii_text "120") <= 4300 /\
  (length (ascii_text "120") < 4300 ->
   parse_field (48%N :: ascii_text "120") = Ok (Some 120%Z)) /\
  (length (ascii_text "120") = 4300 ->
   is_Raise (parse_field (48%N :: ascii_text "120"))).
Proof.
  apply (X8_parsed_value_range (ascii_text "120") 120%Z).
  vm_compute. reflexivity.
Defined.
Lemma X3_first_exception_reported_witness :
  process_bp Sample.template Sample.second_fails Sample.request Sample.env
    Sample.empty_store
  = (ErrorResponse "recogniser failed", Sample.empty_store).
Proof.
  apply X3_first_exception_reported.
  eapply (secondary_failed Sample.template Sample.second_fails Sample.request
            "recogniser failed" "QUJD" (Some Sample.photo) Sample.gray).
  - vm_compute. reflexivity.
  - reflexivity.
  - reflexivity.
  - reflexivity.
  - repeat constructor; eexists; vm_compute; reflexivity.
  - eexists [_], _, [_]. split; [ reflexivity | ]. split.
    + repeat constructor. eexists. vm_compute. reflexivity.
    + vm_compute. reflexivity.
Defined.

Lemma X4_malformed_body_witness :
  process_bp Sample.template Sample.calm {| get_json := Ok (JObject ∅) |}
    Sample.env Sample.empty_store
  = (ErrorResponse "'image_base64'", Sample.empty_store).
Proof.
  exact (proj1 (proj2 (proj2 (X4_malformed_body Sample.template Sample.calm
                                Sample.env Sample.empty_store)))
           ∅ eq_refl).
Defined.

Lemma X5_not_an_image_witness :
  exists msg,
    decode Sample.no_image "QUJD" = Raise msg /\
    process_bp Sample.template Sample.no_image Sample.request Sample.env
      Sample.empty_store = (ErrorResponse msg, Sample.empty_store).
Proof.
  apply (X5_not_an_image Sample.template Sample.no_image Sample.request Sample.env
           Sample.empty_store "QUJD" []).
  - vm_compute. reflexivity.
  - reflexivity.
  - reflexivity.
Defined.

Lemma X9_template_sized_image_witness :
  exists display,
    find_display Sample.template Sample.calm Sample.template = Ok (display, (0, 0)) /\
    shape0 display = shape0 Sample.template /\
    shape1 display = shape1 Sample.template /\
    forall r c, px display r c = px Sample.template r c.
Proof.
  exact (X9_template_sized_image Sample.template Sample.calm Sample.template
           eq_refl eq_refl).
Defined.

Lemma X10_located_score_is_maximal_witness :
  SFltb (ccoeff_normed Sample.calm
           (slice Sample.gray 1 (1 + ROI_H Sample.template) 2 (2 + ROI_W Sample.template))
           Sample.template)
        (ccoeff_normed Sample.calm
           (slice Sample.gray 0 (0 + ROI_H Sample.template) 0 (0 + ROI_W Sample.template))
           Sample.template)
  = false.
Proof.
  apply (X10_located_score_is_maximal Sample.template Sample.calm Sample.gray
           (slice Sample.gray 1 (1 + ROI_H Sample.template) 2 (2 + ROI_W Sample.template))
           2 1).
  - cbn. lia.
  - cbn. lia.
  - vm_compute. reflexivity.
  - cbn. lia.
  - cbn. lia.
Defined.

Lemma X14_region_inside_image_witness :
  (shape0 Sample.gray <= ROI_H Sample.large_template /\
   shape1 Sample.gray <= ROI_W Sample.large_template) /\
  (shape0 Sample.gray <= shape0 Sample.gray /\
   shape1 Sample.gray <= shape1 Sample.gray) /\
  forall r c,
    r < shape0 Sample.gray -> c < shape1 Sample.gray ->
    0 + r < shape0 Sample.gray /\ 0 + c < shape1 Sample.gray /\
    px Sample.gray r c = px Sample.gray (0 + r) (0 + c).
Proof.
  apply (X14_region_inside_image Sample.large_template Sample.calm Sample.gray
           Sample.gray 0 0).
  vm_compute. reflexivity.
Defined.
